(** * CSV audit scripts: [check_csv_urls.py] and [check_missing_urls.py]

    A shallow embedding of the two reporting scripts and the properties
    of their row-counting loop, their per-file report, and the grand
    totals of [check_csv_urls.py]. *)

From stdpp Require Import gmap strings list fin_maps pretty.

Local Open Scope Z_scope.

(** * Part I: the scripts and the notions used to state their properties *)

(** ** Python text *)

(** A Python [str] is a sequence of Unicode code points. *)
Definition codepoint := N.
Definition pystr := list codepoint.

(** A literal of the scripts, read as its code points (the literals of
    the scripts are all ASCII). *)
Fixpoint py (s : string) : pystr :=
  match s with
  | EmptyString => []
  | String a s' => Ascii.N_of_ascii a :: py s'
  end.

(** [str.isspace] on one code point: the white-space table used by
    [str.strip()] when called without argument. *)
Definition isspace (c : codepoint) : bool :=
  (((9 <=? c) && (c <=? 13)) || ((28 <=? c) && (c <=? 32))
   || (c =? 133) || (c =? 160) || (c =? 5760)
   || ((8192 <=? c) && (c <=? 8202))
   || (c =? 8232) || (c =? 8233) || (c =? 8239) || (c =? 8287)
   || (c =? 12288))%N.

Fixpoint lstrip (s : pystr) : pystr :=
  match s with
  | [] => []
  | c :: s' => if isspace c then lstrip s' else s
  end.

Definition rstrip (s : pystr) : pystr := reverse (lstrip (reverse s)).

(** [s.strip()] *)
Definition strip (s : pystr) : pystr := rstrip (lstrip s).

(** Truth value of a [str] in a condition: non-empty. *)
Definition truthy (s : pystr) : bool :=
  match s with [] => false | _ :: _ => true end.

(** Truth value of a [list] in a condition: non-empty. *)
Definition truthy_list {A} (l : list A) : bool :=
  match l with [] => false | _ :: _ => true end.

(** [f"{n}"] for an [int]. *)
Definition fmt_int (n : Z) : pystr := py (pretty n).

(** ** Rows of [csv.DictReader] *)

(** What a row dictionary can hold: a cell of the file, [None] (the
    [restval] of a short row), or the list of surplus cells. *)
Inductive pyval :=
  | PyStr (s : pystr)
  | PyNone
  | PyList (l : list pystr).

(** Keys of a row dictionary: a column name, or [None] (the [restkey]
    under which surplus cells are stored). *)
Definition pykey := option pystr.

Abbreviation row := (gmap pykey pyval).

(** [dict(zip(fieldnames, cells))]: a later duplicate column overwrites
    an earlier one. *)
Fixpoint dict_zip (fieldnames cells : list pystr) (d : row) : row :=
  match fieldnames, cells with
  | k :: ks, v :: vs => dict_zip ks vs (<[Some k := PyStr v]> d)
  | _, _ => d
  end.

(** [for key in keys: d[key] = None] *)
Fixpoint fill_restval (keys : list pystr) (d : row) : row :=
  match keys with
  | [] => d
  | k :: ks => fill_restval ks (<[Some k := PyNone]> d)
  end.

(** One step of [csv.DictReader.__next__] of the Python standard library
    on a non-blank line split into [cells]. *)
Definition dict_row (fieldnames cells : list pystr) : row :=
  let d := dict_zip fieldnames cells ∅ in
  let lf := length fieldnames in
  let lr := length cells in
  if (lf <? lr)%nat then <[None := PyList (drop lf cells)]> d
  else if (lr <? lf)%nat then fill_restval (drop lr fieldnames) d
  else d.

Definition is_blank (cells : list pystr) : bool :=
  match cells with [] => true | _ => false end.

(** [csv.DictReader(file)] run to exhaustion over the records that
    [csv.reader] yields for a file it reads to the end: the first record
    gives the field names, empty records (blank lines) are skipped. *)
Definition DictReader (lines : list (list pystr)) : list row :=
  match lines with
  | [] => []
  | fieldnames :: rest =>
      map (dict_row fieldnames) (filter (λ cells, is_blank cells = false) rest)
  end.

(** ** Exceptions and standard output *)

Inductive exn :=
  | AttributeError
  | FileNotFoundError.

#[global] Instance exn_eq_dec : EqDecision exn.
Proof. solve_decision. Defined.

(** [row.get(key, default)] *)
Definition dict_get (d : row) (key : pystr) (default : pyval) : pyval :=
  match d !! Some key with
  | Some v => v
  | None => default
  end.

(** [v.strip()]: only [str] has the method. *)
Definition call_strip (v : pyval) : exn + pystr :=
  match v with
  | PyStr s => inr (strip s)
  | PyNone | PyList _ => inl AttributeError
  end.

(** A computation that prints and then either raises or returns: the
    texts handed to [print], in order (each is followed by a line feed on
    the terminal), and the outcome. *)
Definition M (A : Type) : Type := list pystr * (exn + A).

Definition raise {A} (e : exn) : M A := ([], inl e).
Definition print (s : pystr) : M unit := ([s], inr tt).
Definition lift {A} (r : exn + A) : M A := ([], r).

#[global] Instance M_ret : MRet M := λ A a, ([], inr a).

#[global] Instance M_bind : MBind M := λ A B f m,
  match m with
  | (out, inl e) => (out, inl e)
  | (out, inr a) => let '(out', r) := f a in (out ++ out', r)
  end.

Definition stdout {A} (m : M A) : list pystr := fst m.
Definition outcome {A} (m : M A) : exn + A := snd m.

(** [for x in xs: body(x)] *)
Fixpoint for_each {A} (xs : list A) (body : A → M unit) : M unit :=
  match xs with
  | [] => mret tt
  | x :: xs' => body x;; for_each xs' body
  end.

(** ** The counting loop (both scripts) *)

(** The local variables of the loop. *)
Record locals := Locals {
  total_rows : Z;
  rows_with_skus : Z;
  rows_with_urls : Z;
  rows_with_both : Z;
  missing_url_skus : list pystr
}.

Definition SKU : pystr := py "SKU".
Definition Origin_URL : pystr := py "Origin URL".

(** [check_csv_urls.py] lines 13-17, [check_missing_urls.py] lines 9-13 *)
Definition init_locals : locals := Locals 0 0 0 0 [].

(** The loop body: [check_csv_urls.py] lines 21-36,
    [check_missing_urls.py] lines 17-32. *)
Definition loop_body (st : locals) (r : row) : exn + locals :=
  let total_rows := total_rows st + 1 in
  match call_strip (dict_get r SKU (PyStr [])) with
  | inl e => inl e
  | inr sku =>
    match call_strip (dict_get r Origin_URL (PyStr [])) with
    | inl e => inl e
    | inr url =>
      let rows_with_skus :=
        if truthy sku then rows_with_skus st + 1 else rows_with_skus st in
      let rows_with_urls :=
        if truthy url then rows_with_urls st + 1 else rows_with_urls st in
      let rows_with_both :=
        if truthy sku && truthy url
        then rows_with_both st + 1 else rows_with_both st in
      let missing_url_skus :=
        if truthy sku && negb (truthy url)
        then missing_url_skus st ++ [sku] else missing_url_skus st in
      inr (Locals total_rows rows_with_skus rows_with_urls rows_with_both
                  missing_url_skus)
    end
  end.

(** [for row in reader: ...] from the state [st]. *)
Fixpoint count_from (st : locals) (reader : list row) : exn + locals :=
  match reader with
  | [] => inr st
  | r :: reader' =>
      match loop_body st r with
      | inl e => inl e
      | inr st' => count_from st' reader'
      end
  end.

Definition count_rows (reader : list row) : exn + locals :=
  count_from init_locals reader.

(** ** [check_csv_urls.py] *)

(** The files the scripts can read to their end: for each path whose file
    opens, decodes as UTF-8 and is read by [csv.reader] without error,
    the records the reader yields, each a list of cells (a record is one
    logical line: a quoted cell may span several physical lines, and an
    empty line is the empty record). A path outside the map is one at
    which there is no file. Other failures of [open] (permissions, a
    directory), undecodable bytes and the [_csv.Error] of a field above
    the field size limit are outside this model: theorems about whole
    runs are about files in this domain. *)
Abbreviation filesystem := (gmap pystr (list (list pystr))).

(** [open(filepath, 'r', encoding='utf-8')] on such a disk: the records
    of the file, or [FileNotFoundError] when there is no file. *)
Definition open (fs : filesystem) (filepath : pystr) : M (list (list pystr)) :=
  match fs !! filepath with
  | Some lines => mret lines
  | None => raise FileNotFoundError
  end.

(** [enumerate(xs, start)] *)
Fixpoint enumerate {A} (xs : list A) (start : Z) : list (Z * A) :=
  match xs with
  | [] => []
  | x :: xs' => (start, x) :: enumerate xs' (start + 1)
  end.

(** [len(xs)] *)
Definition len {A} (xs : list A) : Z := Z.of_nat (length xs).

(** The dictionary returned by [analyze_csv]: its four keys. *)
Record stats := Stats {
  total : Z;
  with_skus : Z;
  with_urls : Z;
  with_both : Z
}.

(** Lines 39-43 of [check_csv_urls.py] (35-39 of [check_missing_urls.py]). *)
Definition print_counters (st : locals) : M unit :=
  print (py "Total rows: " ++ fmt_int (total_rows st));;
  print (py "Rows with SKUs: " ++ fmt_int (rows_with_skus st));;
  print (py "Rows with URLs: " ++ fmt_int (rows_with_urls st));;
  print (py "Rows with both SKU and URL: " ++ fmt_int (rows_with_both st));;
  print (py "Rows with SKU but missing URL: "
           ++ fmt_int (len (missing_url_skus st))).

(** [for i, sku in enumerate(missing_url_skus, 1): print(f"{i}. {sku}")] *)
Definition print_numbered (missing_url_skus : list pystr) : M unit :=
  for_each (enumerate missing_url_skus 1)
    (λ '(i, sku), print (fmt_int i ++ py ". " ++ sku)).

(** The line feed, written [\n] in the literals of the scripts. *)
Definition nl : pystr := [10%N].

(** Lines 45-50 of [check_csv_urls.py]. *)
Definition print_missing (missing_url_skus : list pystr) : M unit :=
  if truthy_list missing_url_skus && (len missing_url_skus <? 10) then
    print (nl ++ py "SKUs missing URLs:");;
    print_numbered missing_url_skus
  else if truthy_list missing_url_skus then
    print (nl ++ py "Found " ++ fmt_int (len missing_url_skus)
              ++ py " SKUs missing URLs (too many to list)")
  else mret tt.

(** Lines 52-57. *)
Definition stats_of (st : locals) : stats :=
  Stats (total_rows st) (rows_with_skus st) (rows_with_urls st)
        (rows_with_both st).

(** [analyze_csv(filepath)], lines 4-57. *)
Definition analyze_csv (fs : filesystem) (filepath : pystr) : M stats :=
  print (nl ++ py "Analyzing: " ++ filepath);;
  file ← open fs filepath;
  st ← lift (count_rows (DictReader file));
  print_counters st;;
  print_missing (missing_url_skus st);;
  mret (stats_of st).

Definition apr_path : pystr :=
  py "attached_assets/processed_APR Performance BAI 1.csv".
Definition artec_path : pystr :=
  py "attached_assets/processed_ARTEC BAI 1.csv".
Definition bilstein_path : pystr :=
  py "attached_assets/processed_Bilstein BAI 1.csv".

(** Lines 65-68: the four grand totals. *)
Definition total_records (apr_stats artec_stats bilstein_stats : stats) : Z :=
  total apr_stats + total artec_stats + total bilstein_stats.
Definition total_with_skus (apr_stats artec_stats bilstein_stats : stats) : Z :=
  with_skus apr_stats + with_skus artec_stats + with_skus bilstein_stats.
Definition total_with_urls (apr_stats artec_stats bilstein_stats : stats) : Z :=
  with_urls apr_stats + with_urls artec_stats + with_urls bilstein_stats.
Definition total_with_both (apr_stats artec_stats bilstein_stats : stats) : Z :=
  with_both apr_stats + with_both artec_stats + with_both bilstein_stats.

(** Lines 70-74. *)
Definition print_summary (apr_stats artec_stats bilstein_stats : stats) : M unit :=
  print (nl ++ py "=== SUMMARY ===");;
  print (py "Total records across all CSVs: "
           ++ fmt_int (total_records apr_stats artec_stats bilstein_stats));;
  print (py "Total records with SKUs: "
           ++ fmt_int (total_with_skus apr_stats artec_stats bilstein_stats));;
  print (py "Total records with URLs: "
           ++ fmt_int (total_with_urls apr_stats artec_stats bilstein_stats));;
  print (py "Total records with both SKU and URL: "
           ++ fmt_int (total_with_both apr_stats artec_stats bilstein_stats)).

(** The module body of [check_csv_urls.py], lines 60-74. *)
Definition check_csv_urls (fs : filesystem) : M unit :=
  apr_stats ← analyze_csv fs apr_path;
  artec_stats ← analyze_csv fs artec_path;
  bilstein_stats ← analyze_csv fs bilstein_path;
  print_summary apr_stats artec_stats bilstein_stats.

(** ** [check_missing_urls.py] *)

(** Lines 41-44 of [check_missing_urls.py]. *)
Definition print_all_missing (missing_url_skus : list pystr) : M unit :=
  if truthy_list missing_url_skus then
    print (nl ++ py "SKUs missing URLs:");;
    print_numbered missing_url_skus
  else mret tt.

(** The module body of [check_missing_urls.py]. *)
Definition check_missing_urls (fs : filesystem) : M unit :=
  file ← open fs apr_path;
  st ← lift (count_rows (DictReader file));
  print_counters st;;
  print_all_missing (missing_url_skus st).

(** ** Sample inputs *)

Definition header : list pystr := [SKU; Origin_URL].

(** The four rows of the worked example: both fields, identifier only,
    link only, neither ([[]] is the empty cell). *)
Definition example_lines : list (list pystr) :=
  [ header;
    [py "A"; py "x"];
    [py "B"; []];
    [[]; py "y"];
    [[]; []] ].

Definition example_rows : list row := DictReader example_lines.

(** A file whose only data line has fewer cells than the header. *)
Definition short_lines : list (list pystr) := [ header; [py "A"] ].

(** [n] data lines, each with identifier [S] and an empty link. *)
Definition unlinked_lines (n : nat) : list (list pystr) :=
  header :: replicate n [py "S"; []].

(** ** The audit as the specification words it *)

Module Spec.

(** The aggregate counters of one audit pass. *)
Record AuditResult := {
  total : Z;
  with_identifier : Z;
  with_link : Z;
  with_both : Z;
  missing_link_identifiers : list pystr
}.

Definition empty_result : AuditResult :=
  {| total := 0; with_identifier := 0; with_link := 0; with_both := 0;
     missing_link_identifiers := [] |}.

(** The value of a field, an absent field being the empty text. *)
Definition field_or_empty (record : row) (name : pystr) : pystr :=
  match record !! Some name with
  | Some (PyStr s) => s
  | _ => []
  end.

Definition non_empty (s : pystr) : bool := negb (bool_decide (s = [])).

Definition bump (b : bool) (n : Z) : Z := if b then n + 1 else n.

(** The per-row rule. *)
Definition audit_step (acc : AuditResult) (record : row) : AuditResult :=
  let identifier := strip (field_or_empty record SKU) in
  let link := strip (field_or_empty record Origin_URL) in
  {| total := total acc + 1;
     with_identifier := bump (non_empty identifier) (with_identifier acc);
     with_link := bump (non_empty link) (with_link acc);
     with_both := bump (non_empty identifier && non_empty link) (with_both acc);
     missing_link_identifiers :=
       if non_empty identifier && negb (non_empty link)
       then missing_link_identifiers acc ++ [identifier]
       else missing_link_identifiers acc |}.

Definition audit (records : list row) : AuditResult :=
  fold_left audit_step records empty_result.

End Spec.

(** The loop's variables read as an [AuditResult]. *)
Definition result_of (st : locals) : Spec.AuditResult :=
  {| Spec.total := total_rows st;
     Spec.with_identifier := rows_with_skus st;
     Spec.with_link := rows_with_urls st;
     Spec.with_both := rows_with_both st;
     Spec.missing_link_identifiers := missing_url_skus st |}.

Definition is_text (v : pyval) : bool :=
  match v with PyStr _ => true | _ => false end.

(** A row whose two designated fields are text or absent. *)
Definition textual (r : row) : Prop :=
  is_text (dict_get r SKU (PyStr [])) ∧ is_text (dict_get r Origin_URL (PyStr [])).

(** The trimmed value of a designated field, as the loop body reads it. *)
Definition field (r : row) (name : pystr) : exn + pystr :=
  call_strip (dict_get r name (PyStr [])).

#[global] Instance textual_dec (r : row) : Decision (textual r).
Proof. unfold textual. apply _. Defined.

(** ** Invariants of the counters *)

Definition counters_inv (st : locals) : Prop :=
  0 ≤ rows_with_both st
  ∧ rows_with_both st ≤ rows_with_skus st ≤ total_rows st
  ∧ rows_with_both st ≤ rows_with_urls st ≤ total_rows st
  ∧ len (missing_url_skus st) = rows_with_skus st - rows_with_both st.

(** ** The missing list *)

(** The identifier a row contributes to the missing list, if any. *)
Definition qualifying (r : row) : option pystr :=
  match field r SKU, field r Origin_URL with
  | inr sku, inr url =>
      if truthy sku && negb (truthy url) then Some sku else None
  | _, _ => None
  end.

(** Two rows with the same identifier and no link. *)
Definition repeated_lines : list (list pystr) :=
  [ header; [py "B"; []]; [py "A"; py "x"]; [py "C"; []];
    [py "B"; []] ].

(** ** Only the two designated fields matter *)

(** Two rows agree when their trimmed identifier and trimmed link are
    the same (or fail to be read in the same way). *)
Definition agree (r r' : row) : Prop :=
  field r SKU = field r' SKU ∧ field r Origin_URL = field r' Origin_URL.

(** The example rows with other columns added, reordered columns and
    padded cells. *)
Definition padded_lines : list (list pystr) :=
  [ [py "Title"; Origin_URL; SKU; py "Price"];
    [py "Intake"; py " x"; py "A "; py "10"];
    [py "Exhaust"; py "   "; py "B"; py "20"; py "surplus"];
    [py "Coilover"; py "y"; []; []];
    [py "Spacer"; []; [9%N; 160%N]; py "5"] ].

#[global] Instance agree_dec (r r' : row) : Decision (agree r r').
Proof. unfold agree. apply _. Defined.

(** ** What the scripts print *)

(** The line printed for the [i]-th missing identifier. *)
Definition numbered_line (i : nat) (identifier : pystr) : pystr :=
  fmt_int (Z.of_nat i) ++ py ". " ++ identifier.

(** The threshold rule of the listing block, as the specification words
    it: nothing for no missing identifier, a numbered line for each of
    one to nine, and a single line carrying the count for ten or more. *)
Definition threshold_rule (missing listing : list pystr) : Prop :=
  let n := length missing in
  (n = 0%nat → listing = [])
  ∧ ((1 ≤ n < 10)%nat →
     ∀ (i : nat) (identifier : pystr),
       missing !! i = Some identifier →
       numbered_line (S i) identifier ∈ listing)
  ∧ ((10 ≤ n)%nat →
     ∃ pre post, listing = [pre ++ fmt_int (Z.of_nat n) ++ post]).

(** The listing of [check_missing_urls.py]: nothing for no missing
    identifier, else a heading and a numbered line for each. *)
Definition full_listing (missing : list pystr) : list pystr :=
  match missing with
  | [] => []
  | _ => (nl ++ py "SKUs missing URLs:") :: imap (λ i, numbered_line (S i)) missing
  end.

(** ** Grand totals *)

(** The elementwise sum of two results. *)
Definition sum_results (a b : stats) : stats :=
  Stats (total a + total b) (with_skus a + with_skus b)
        (with_urls a + with_urls b) (with_both a + with_both b).

(** [summarize] as the specification words it: the elementwise sum over
    a sequence of results. *)
Definition summarize (results : list stats) : stats :=
  foldr sum_results (Stats 0 0 0 0) results.

(** The four grand totals of the module body, as one record. *)
Definition grand_totals (apr_stats artec_stats bilstein_stats : stats) : stats :=
  Stats (total_records apr_stats artec_stats bilstein_stats)
        (total_with_skus apr_stats artec_stats bilstein_stats)
        (total_with_urls apr_stats artec_stats bilstein_stats)
        (total_with_both apr_stats artec_stats bilstein_stats).

(** ** The summary block of [check_csv_urls.py] *)

Definition summary_header : pystr := nl ++ py "=== SUMMARY ===".

(** A summary block with five counter lines, as the specification words
    it: the output ends with the header followed by five lines. *)
Definition five_line_summary (out : list pystr) : Prop :=
  ∃ (pre : list pystr) (h l1 l2 l3 l4 l5 : pystr),
    (h = summary_header ∨ h = py "=== SUMMARY ===")
    ∧ out = pre ++ [h; l1; l2; l3; l4; l5].

(** Three files: the worked example, a file with a header only, and two
    rows with an identifier and no link. *)
Definition three_files : filesystem :=
  {[ apr_path := example_lines;
     artec_path := [header];
     bilstein_path := unlinked_lines 2 ]}.

(** ** Rows of well-formed files *)

(** Every value stored under a column name is text. *)
Definition all_text (d : row) : Prop :=
  ∀ (k : pystr) (v : pyval), d !! Some k = Some v → is_text v.

(** ** Notions used by the further properties *)

(** A row whose trimmed identifier (link) is read and non-empty. *)
Definition has_sku (r : row) : bool :=
  match field r SKU with inr sku => truthy sku | inl _ => false end.

Definition has_url (r : row) : bool :=
  match field r Origin_URL with inr url => truthy url | inl _ => false end.

(** The variables of two loops taken together: counters added, missing
    lists one after the other. *)
Definition add_locals (a b : locals) : locals :=
  Locals (total_rows a + total_rows b)
         (rows_with_skus a + rows_with_skus b)
         (rows_with_urls a + rows_with_urls b)
         (rows_with_both a + rows_with_both b)
         (missing_url_skus a ++ missing_url_skus b).

(** The example rows in another order. *)
Definition shuffled_lines : list (list pystr) :=
  [ header;
    [[]; py "y"];
    [py "B"; []];
    [[]; []];
    [py "A"; py "x"] ].

(** A non-empty record of [csv.reader] (an empty record is what the
    reader yields for a blank line). *)
Definition non_blank (cells : list pystr) : Prop := cells ≠ [].

#[global] Instance non_blank_dec (cells : list pystr) : Decision (non_blank cells).
Proof. unfold non_blank. apply _. Defined.

(** A file with blank lines only after (and before) its header-less
    start: an empty first line, then blank lines. *)
Definition blank_lines : list (list pystr) := [ header; []; []; [] ].

(** Data lines separated by blank lines. *)
Definition gappy_lines : list (list pystr) :=
  [ header; []; [py "A"; py "x"]; []; [py "B"; []]; [] ].

(** A file without an 'SKU' column. *)
Definition no_sku_lines : list (list pystr) :=
  [ [py "Title"; Origin_URL];
    [py "Intake"; py "x"];
    [py "Exhaust"; []] ].

(** A non-blank line that has no cell for a designated column of the
    header. *)
Definition lacks_designated (fieldnames cells : list pystr) : Prop :=
  non_blank cells
  ∧ (SKU ∈ drop (length cells) fieldnames
     ∨ Origin_URL ∈ drop (length cells) fieldnames).

#[global] Instance lacks_designated_dec (fieldnames cells : list pystr) :
  Decision (lacks_designated fieldnames cells).
Proof. unfold lacks_designated. apply _. Defined.

(** A file with such a line after its header. *)
Definition has_short_line (lines : list (list pystr)) : Prop :=
  match lines with
  | [] => False
  | fieldnames :: rest => Exists (lacks_designated fieldnames) rest
  end.

#[global] Instance has_short_line_dec (lines : list (list pystr)) :
  Decision (has_short_line lines).
Proof. destruct lines; simpl; apply _. Defined.

(** Two lines of equal length with the same cells under the columns
    named 'SKU' and 'Origin URL'. *)
Definition same_designated (fieldnames cells cells' : list pystr) : Prop :=
  length cells = length cells'
  ∧ ∀ (i : nat) (name : pystr),
      fieldnames !! i = Some name → name = SKU ∨ name = Origin_URL →
      cells !! i = cells' !! i.

(** The example file with a title and a price column, and the same file
    with other titles and prices. *)
Definition catalogue_lines : list (list pystr) :=
  [ [py "Title"; SKU; Origin_URL; py "Price"];
    [py "Intake"; py "A"; py "x"; py "10"];
    [py "Exhaust"; py "B"; []; py "20"] ].

Definition repriced_lines : list (list pystr) :=
  [ [py "Title"; SKU; Origin_URL; py "Price"];
    [py "Cold air intake"; py "A"; py "x"; py "12"];
    [[]; py "B"; []; py "n/a"] ].

(** A text made of white space only (the empty text included). *)
Definition all_space (s : pystr) : bool := forallb isspace s.

(** A row with padded text under both designated columns. *)
Definition padded_row : row :=
  {[ Some SKU := PyStr (py "  A7 "); Some Origin_URL := PyStr [9%N; 32%N] ]}.

(** A decimal digit. *)
Definition is_digit (c : codepoint) : bool := ((48 <=? c) && (c <=? 57))%N.

(** A file system in which the second file of [check_csv_urls.py] has a
    short line and the third is absent. *)
Definition broken_files : filesystem :=
  {[ apr_path := example_lines; artec_path := short_lines ]}.

(** Two lines that fill the header and differ at most in the cells
    beyond it. *)
Definition surplus_only (fieldnames cells cells' : list pystr) : Prop :=
  (length fieldnames ≤ length cells)%nat
  ∧ (length fieldnames ≤ length cells')%nat
  ∧ take (length fieldnames) cells = take (length fieldnames) cells'
  ∧ (cells = [] ↔ cells' = []).

(** The example file with cells beyond the header on two lines. *)
Definition surplus_lines : list (list pystr) :=
  [ header;
    [py "A"; py "x"; py "extra"];
    [py "B"; []];
    [[]; py "y"; []; []; py "z"];
    [[]; []] ].

(** A row and the same row with white space around its two cells. *)
Definition plain_row : row :=
  {[ Some SKU := PyStr (py "A 7"); Some Origin_URL := PyStr (py "x") ]}.

Definition spaced_row : row :=
  {[ Some SKU := PyStr ([32%N; 9%N] ++ py "A 7" ++ [160%N]);
     Some Origin_URL := PyStr ([] ++ py "x" ++ [13%N; 10%N]) ]}.

(** ** The per-row rule in the specification's own terms *)

Module Rule.

(** [t] is [s] trimmed of leading and trailing white space: [s] is [t]
    between two runs of white space, and [t] neither starts nor ends
    with white space. *)
Definition trimmed (s t : pystr) : Prop :=
  ∃ pre post,
    s = pre ++ t ++ post
    ∧ Forall (λ c, isspace c = true) pre
    ∧ Forall (λ c, isspace c = true) post
    ∧ (∀ c, head t = Some c → isspace c = false)
    ∧ (∀ c, last t = Some c → isspace c = false).

(** A field of a record that is text or absent. *)
Definition text_or_absent (record : row) (name : pystr) : bool :=
  match record !! Some name with
  | None | Some (PyStr _) => true
  | Some _ => false
  end.

(** A record of the specification: its two designated fields are text or
    absent. *)
Definition is_record (record : row) : Prop :=
  text_or_absent record SKU ∧ text_or_absent record Origin_URL.

(** One row: the two designated values, an absent one being the empty
    text, are trimmed; the total grows by one; each presence counter
    grows by one exactly when its condition on the trimmed values holds;
    the trimmed identifier is appended to the missing list exactly when
    it is non-empty and the trimmed link is empty. *)
Inductive step : Spec.AuditResult → row → Spec.AuditResult → Prop :=
  | step_row (acc : Spec.AuditResult) (record : row) (identifier link : pystr) :
      trimmed (Spec.field_or_empty record SKU) identifier →
      trimmed (Spec.field_or_empty record Origin_URL) link →
      step acc record
        {| Spec.total := Spec.total acc + 1;
           Spec.with_identifier :=
             if bool_decide (identifier ≠ [])
             then Spec.with_identifier acc + 1 else Spec.with_identifier acc;
           Spec.with_link :=
             if bool_decide (link ≠ [])
             then Spec.with_link acc + 1 else Spec.with_link acc;
           Spec.with_both :=
             if bool_decide (identifier ≠ [] ∧ link ≠ [])
             then Spec.with_both acc + 1 else Spec.with_both acc;
           Spec.missing_link_identifiers :=
             if bool_decide (identifier ≠ [] ∧ link = [])
             then Spec.missing_link_identifiers acc ++ [identifier]
             else Spec.missing_link_identifiers acc |}.

(** The rule applied to the records in order. *)
Inductive audits : Spec.AuditResult → list row → Spec.AuditResult → Prop :=
  | audits_nil (acc : Spec.AuditResult) : audits acc [] acc
  | audits_cons (acc acc' result : Spec.AuditResult) (record : row)
      (records : list row) :
      step acc record acc' → audits acc' records result →
      audits acc (record :: records) result.

End Rule.

#[global] Instance is_record_dec (record : row) : Decision (Rule.is_record record).
Proof. unfold Rule.is_record. apply _. Defined.

(** A file without an 'Origin URL' column, with padded cells. *)
Definition no_url_lines : list (list pystr) :=
  [ [SKU; py "Title"];
    [py " A"; py "Intake"];
    [[32%N; 9%N]; py "Exhaust"];
    [py "B "; []] ].

(** ** The field size limit of the [csv] module *)

(** [csv.field_size_limit()]: the reader raises [_csv.Error] on a field
    of more characters. *)
Definition field_size_limit : Z := 131072.

(** Records whose cells are all within the limit, as every file in the
    domain of [filesystem] has them. *)
Definition within_field_limit (lines : list (list pystr)) : Prop :=
  Forall (Forall (λ cell : pystr, len cell ≤ field_size_limit)) lines.

(** ** File objects *)

(** A file object: the records its reader has not yet yielded, or a
    closed file. *)
Inductive file_object :=
  | Opened (unread : list (list pystr))
  | Closed.

(** The state a run acts on: the disk, the file objects created so far
    (a file object is named by its position), and what has been printed. *)
Record world := World {
  disk : filesystem;
  objects : list file_object;
  console : list pystr
}.

(** What a stateful run can raise: an exception of the scripts, or the
    [ValueError] of an operation on a closed file. *)
Inductive failure :=
  | Exn (e : exn)
  | ValueError.

(** A computation on the world that raises or returns. *)
Definition W (A : Type) : Type := world → world * (failure + A).

#[global] Instance W_ret : MRet W := λ A a w, (w, inr a).

#[global] Instance W_bind : MBind W := λ A B f m w,
  match m w with
  | (w', inl e) => (w', inl e)
  | (w', inr a) => f a w'
  end.

Definition w_print (s : pystr) : W unit := λ w,
  (World (disk w) (objects w) (console w ++ [s]), inr tt).

(** Printing computations of the first part run on the console. *)
Definition w_lift {A} (m : M A) : W A := λ w,
  (World (disk w) (objects w) (console w ++ stdout m),
   match outcome m with inl e => inl (Exn e) | inr a => inr a end).

(** [open(filepath, 'r', encoding='utf-8')]: a new file object at the
    start of the file. *)
Definition w_open (filepath : pystr) : W nat := λ w,
  match disk w !! filepath with
  | Some records =>
      (World (disk w) (objects w ++ [Opened records]) (console w),
       inr (length (objects w)))
  | None => (w, inl (Exn FileNotFoundError))
  end.

Definition w_close (file : nat) (w : world) : world :=
  World (disk w) (<[file := Closed]> (objects w)) (console w).

(** [with ... as file: body]: the file is closed on every way out. *)
Definition w_with {A} (file : nat) (body : W A) : W A := λ w,
  let '(w', r) := body w in (w_close file w', r).

(** [for row in reader: ...] on the records not yet read, the field
    names being known: the reader yields one row at a time, skipping
    empty records, and an exception of the body leaves the rest unread. *)
Fixpoint iterate (fieldnames : list pystr) (unread : list (list pystr))
    (st : locals) : list (list pystr) * (exn + locals) :=
  match unread with
  | [] => ([], inr st)
  | cells :: unread' =>
      if is_blank cells then iterate fieldnames unread' st
      else match loop_body st (dict_row fieldnames cells) with
           | inl e => (unread', inl e)
           | inr st' => iterate fieldnames unread' st'
           end
  end.

(** [reader = csv.DictReader(file)] and the loop over it from the state
    [st]: the first record read gives the field names. *)
Definition w_loop (file : nat) (st : locals) : W locals := λ w,
  match objects w !! file with
  | Some (Opened []) => (w, inr st)
  | Some (Opened (fieldnames :: unread)) =>
      let '(unread', r) := iterate fieldnames unread st in
      (World (disk w) (<[file := Opened unread']> (objects w)) (console w),
       match r with inl e => inl (Exn e) | inr st' => inr st' end)
  | Some Closed | None => (w, inl ValueError)
  end.

(** [analyze_csv(filepath)], lines 4-57, on the world. *)
Definition analyze_csv_w (filepath : pystr) : W stats :=
  w_print (nl ++ py "Analyzing: " ++ filepath);;
  file ← w_open filepath;
  w_with file
    (st ← w_loop file init_locals;
     w_lift (print_counters st);;
     w_lift (print_missing (missing_url_skus st));;
     mret (stats_of st)).

(** Lines 8-36 alone: the file is opened, the loop runs from fresh
    counters, the file is closed; the variables of the loop are kept. *)
Definition audit_w (filepath : pystr) : W locals :=
  file ← w_open filepath;
  w_with file (w_loop file init_locals).

(** The loop run twice over one file object, without opening the file
    again. *)
Definition loop_twice (filepath : pystr) : W (locals * locals) :=
  file ← w_open filepath;
  w_with file
    (first ← w_loop file init_locals;
     second ← w_loop file init_locals;
     mret (first, second)).

(** A world with the example file, nothing opened, nothing printed. *)
Definition example_world : world :=
  World {[ apr_path := example_lines ]} [] [].

(** * Part II: properties *)

(** ** The loop, row by row *)

Lemma truthy_non_empty (s : pystr) : truthy s = Spec.non_empty s.
Proof. by destruct s. Qed.

Lemma field_textual (r : row) (name : pystr) :
  is_text (dict_get r name (PyStr [])) →
  field r name = inr (strip (Spec.field_or_empty r name)).
Proof.
  unfold field, dict_get, Spec.field_or_empty.
  destruct (r !! Some name) as [[s| |l]|]; simpl; intros H; done.
Qed.

Lemma loop_body_fields (st : locals) (r : row) (sku url : pystr) :
  field r SKU = inr sku → field r Origin_URL = inr url →
  loop_body st r =
    inr (Locals (total_rows st + 1)
           (if truthy sku then rows_with_skus st + 1 else rows_with_skus st)
           (if truthy url then rows_with_urls st + 1 else rows_with_urls st)
           (if truthy sku && truthy url
            then rows_with_both st + 1 else rows_with_both st)
           (if truthy sku && negb (truthy url)
            then missing_url_skus st ++ [sku] else missing_url_skus st)).
Proof. unfold field, loop_body. by intros -> ->. Qed.

Lemma loop_body_textual (st : locals) (r : row) :
  textual r →
  ∃ st', loop_body st r = inr st'
         ∧ result_of st' = Spec.audit_step (result_of st) r.
Proof.
  intros [Hs Hu]. eexists. split.
  - apply loop_body_fields; by apply field_textual.
  - unfold result_of, Spec.audit_step; simpl.
    rewrite !truthy_non_empty. reflexivity.
Qed.

Lemma count_from_textual (reader : list row) (st : locals) :
  Forall textual reader →
  ∃ st', count_from st reader = inr st'
         ∧ result_of st' = fold_left Spec.audit_step reader (result_of st).
Proof.
  intros Hall. revert st.
  induction Hall as [|r reader Hr _ IH]; intros st; simpl.
  - by exists st.
  - destruct (loop_body_textual st r Hr) as (st1 & -> & <-). apply IH.
Qed.

Lemma loop_body_ok_iff (st : locals) (r : row) :
  (∃ st', loop_body st r = inr st') ↔ textual r.
Proof.
  split.
  - intros [st' Hbody]. unfold loop_body in Hbody. unfold textual.
    destruct (dict_get r SKU _) as [s| |l]; simpl in *; try done.
    destruct (dict_get r Origin_URL _) as [u| |l]; simpl in *; done.
  - intros Hr. destruct (loop_body_textual st r Hr) as (st' & ? & _). eauto.
Qed.

(** The loop returns exactly when every row is textual. *)
Lemma count_from_ok_iff (reader : list row) (st : locals) :
  (∃ st', count_from st reader = inr st') ↔ Forall textual reader.
Proof.
  split.
  - revert st. induction reader as [|r reader IH]; intros st [st' Hrun].
    { constructor. }
    simpl in Hrun. destruct (loop_body st r) as [?|st1] eqn:Hbody; [done|].
    constructor; [apply (loop_body_ok_iff st r)|apply (IH st1)]; eauto.
  - intros Hall. destruct (count_from_textual reader st Hall) as (st' & ? & _).
    eauto.
Qed.

Lemma loop_body_raises (st : locals) (r : row) (e : exn) :
  loop_body st r = inl e → e = AttributeError.
Proof.
  unfold loop_body.
  destruct (dict_get r SKU _) as [s| |l]; simpl; try congruence.
  destruct (dict_get r Origin_URL _) as [u| |l]; simpl; congruence.
Qed.

(** The loop raises only [AttributeError], and only on a row that is not
    textual. *)
Lemma count_from_raises (reader : list row) (st : locals) (e : exn) :
  count_from st reader = inl e →
  e = AttributeError ∧ ¬ Forall textual reader.
Proof.
  intros Hrun. split.
  - revert st Hrun. induction reader as [|r reader IH]; intros st; simpl; [done|].
    destruct (loop_body st r) as [e'|st1] eqn:Hbody.
    + intros [= <-]. by eapply loop_body_raises.
    + apply IH.
  - intros Hall. apply (count_from_ok_iff reader st) in Hall as [st' Hst'].
    congruence.
Qed.

(** ** Invariants of the counters *)

Lemma len_app_one {A} (l : list A) (x : A) : len (l ++ [x]) = len l + 1.
Proof. unfold len. rewrite length_app. simpl. lia. Qed.

Lemma loop_body_inv (st st' : locals) (r : row) :
  counters_inv st → loop_body st r = inr st' → counters_inv st'.
Proof.
  unfold counters_inv, loop_body.
  intros (H0 & Hs & Hu & Hm) Hbody.
  destruct (call_strip (dict_get r SKU _)) as [?|sku]; [done|].
  destruct (call_strip (dict_get r Origin_URL _)) as [?|url]; [done|].
  injection Hbody as <-. simpl.
  destruct (truthy sku), (truthy url); simpl;
    rewrite ?len_app_one; lia.
Qed.

Lemma count_from_inv (reader : list row) (st st' : locals) :
  counters_inv st → count_from st reader = inr st' → counters_inv st'.
Proof.
  revert st. induction reader as [|r reader IH]; intros st Hinv; simpl.
  - by intros [= <-].
  - destruct (loop_body st r) as [?|st1] eqn:Hbody; [done|].
    apply IH. by eapply loop_body_inv.
Qed.

(** C2: for every input the loop either returns, and then the number of
    rows with both fields is at most the number with an identifier and
    at most the number with a link, each of those is at most the total,
    and the length of the missing list is the number with an identifier
    minus the number with both; or it raises [AttributeError], which
    happens only when some row is not textual. *)
Theorem audit_invariant (reader : list row) :
  match count_rows reader with
  | inr st =>
      rows_with_both st ≤ rows_with_skus st ≤ total_rows st
      ∧ rows_with_both st ≤ rows_with_urls st ≤ total_rows st
      ∧ rows_with_both st ≤ Z.min (rows_with_skus st) (rows_with_urls st)
      ∧ len (missing_url_skus st) = rows_with_skus st - rows_with_both st
  | inl e => e = AttributeError ∧ ¬ Forall textual reader
  end.
Proof.
  destruct (count_rows reader) as [e|st] eqn:Hrun.
  - by apply (count_from_raises reader init_locals).
  - assert (Hinit : counters_inv init_locals)
      by (vm_compute; intuition congruence).
    destruct (count_from_inv reader _ _ Hinit Hrun) as (_ & Hs & Hu & Hm).
    repeat split; try tauto; lia.
Qed.

(** ** The missing list *)

Lemma loop_body_missing (st st' : locals) (r : row) :
  loop_body st r = inr st' →
  missing_url_skus st' = missing_url_skus st ++ option_list (qualifying r).
Proof.
  unfold loop_body, qualifying, field.
  destruct (call_strip (dict_get r SKU _)) as [?|sku]; [done|].
  destruct (call_strip (dict_get r Origin_URL _)) as [?|url]; [done|].
  intros [= <-]. simpl.
  destruct (truthy sku && negb (truthy url)); simpl; by rewrite ?app_nil_r.
Qed.

Lemma count_from_missing (reader : list row) (st st' : locals) :
  count_from st reader = inr st' →
  missing_url_skus st' = missing_url_skus st ++ omap qualifying reader.
Proof.
  revert st. induction reader as [|r reader IH]; intros st; simpl.
  - intros [= <-]. by rewrite app_nil_r.
  - destruct (loop_body st r) as [?|st1] eqn:Hbody; [done|].
    intros Hrest. rewrite (IH _ Hrest), (loop_body_missing _ _ _ Hbody).
    rewrite <- app_assoc. f_equal. by destruct (qualifying r).
Qed.

Lemma length_omap_filter {A B} (f : A → option B) (l : list A) :
  length (omap f l) = length (filter (λ x, is_Some (f x)) l).
Proof.
  induction l as [|x l IH]; [done|].
  rewrite (filter_cons (λ x, is_Some (f x))). cbn [omap list_omap].
  destruct (f x) as [y|] eqn:Hfx.
  - rewrite decide_True by eauto. simpl. by rewrite <- IH.
  - rewrite decide_False by (by intros [? ?]). done.
Qed.

Lemma occurrences_omap {A} `{EqDecision B} (f : A → option B) (y : B)
    (l : list A) :
  length (filter (λ z, z = y) (omap f l))
  = length (filter (λ x, f x = Some y) l).
Proof.
  induction l as [|x l IH]; [done|].
  rewrite (filter_cons (λ x, f x = Some y)). cbn [omap list_omap].
  destruct (f x) as [z|] eqn:Hfx.
  - rewrite (filter_cons (λ z, z = y)). destruct (decide (z = y)) as [->|Hne].
    + rewrite decide_True by done. simpl. by rewrite <- IH.
    + rewrite decide_False by congruence. done.
  - rewrite decide_False by done. done.
Qed.

(** C9: when the loop returns, the missing list holds the trimmed
    identifier of every row that has an identifier and no link, in the
    order of the rows and without deduplication: its length is the number
    of such rows, and each identifier occurs in it as many times as there
    are such rows carrying it (the loop fails to return only on a row
    that is not textual). With identifier B on two such rows the list is
    [B, C, B]. *)
Theorem missing_list_per_row :
  (∀ reader : list row,
     match count_rows reader with
     | inr st =>
         missing_url_skus st = omap qualifying reader
         ∧ length (missing_url_skus st)
           = length (filter (λ r, is_Some (qualifying r)) reader)
         ∧ (∀ identifier : pystr,
              length (filter (λ s, s = identifier) (missing_url_skus st))
              = length (filter (λ r, qualifying r = Some identifier) reader))
     | inl e => ¬ Forall textual reader
     end)
  ∧ count_rows (DictReader repeated_lines)
    = inr (Locals 4 4 1 1 [py "B"; py "C"; py "B"]).
Proof.
  split; [|vm_compute; reflexivity].
  intros reader. destruct (count_rows reader) as [e|st] eqn:Hrun.
  - by apply (count_from_raises reader init_locals e).
  - apply count_from_missing in Hrun. simpl in Hrun.
    rewrite Hrun. split_and!.
    + done.
    + apply length_omap_filter.
    + intros identifier. apply occurrences_omap.
Qed.

(** ** Only the two designated fields matter *)

Lemma loop_body_agree (st : locals) (r r' : row) :
  agree r r' → loop_body st r = loop_body st r'.
Proof.
  unfold agree, field, loop_body. intros [-> ->]. reflexivity.
Qed.

Lemma count_from_agree (reader reader' : list row) (st : locals) :
  Forall2 agree reader reader' → count_from st reader = count_from st reader'.
Proof.
  intros Hall. revert st.
  induction Hall as [|r r' reader reader' Hr _ IH]; intros st; simpl.
  - reflexivity.
  - rewrite (loop_body_agree st r r' Hr).
    destruct (loop_body st r'); [reflexivity | apply IH].
Qed.

(** C10: two inputs of equal length whose rows agree, one by one, on the
    trimmed 'SKU' and 'Origin URL' values give the same outcome of the
    loop: the same four counters and the same missing list, whatever the
    other fields hold. *)
Theorem audit_noninterference (reader reader' : list row) :
  Forall2 agree reader reader' → count_rows reader = count_rows reader'.
Proof. apply count_from_agree. Qed.

Lemma audit_noninterference_example :
  Forall2 agree example_rows (DictReader padded_lines)
  ∧ count_rows example_rows = count_rows (DictReader padded_lines).
Proof.
  assert (H : Forall2 agree example_rows (DictReader padded_lines))
    by (apply (bool_decide_unpack _); vm_compute; exact I).
  split; [exact H | exact (audit_noninterference _ _ H)].
Defined.

(** ** What the scripts print *)

Lemma bind_returns {A B} (m : M A) (f : A → M B) (out : list pystr) (a : A) :
  m = (out, inr a) → m ≫= f = (out ++ stdout (f a), outcome (f a)).
Proof. intros ->. unfold mbind, M_bind, stdout, outcome. by destruct (f a). Qed.

Lemma bind_raises {A B} (m : M A) (f : A → M B) (out : list pystr) (e : exn) :
  m = (out, inl e) → m ≫= f = (out, inl e).
Proof. by intros ->. Qed.

Lemma for_each_print {A} (xs : list A) (body : A → M unit) (f : A → pystr) :
  (∀ x, body x = print (f x)) →
  for_each xs body = (map f xs, inr tt).
Proof.
  intros Hbody. induction xs as [|x xs IH]; [done|].
  simpl. by rewrite Hbody, IH.
Qed.

Lemma enumerate_lines (xs : list pystr) (k : nat) :
  map (λ '(i, sku), fmt_int i ++ py ". " ++ sku) (enumerate xs (Z.of_nat k))
  = imap (λ i, numbered_line (k + i)) xs.
Proof.
  revert k. induction xs as [|x xs IH]; intros k; [done|].
  simpl. f_equal.
  - unfold numbered_line. by rewrite Nat.add_0_r.
  - replace (Z.of_nat k + 1) with (Z.of_nat (S k)) by lia.
    rewrite IH. apply imap_ext. intros i y _. simpl. f_equal. lia.
Qed.

Lemma print_numbered_run (missing : list pystr) :
  print_numbered missing = (imap (λ i, numbered_line (S i)) missing, inr tt).
Proof.
  unfold print_numbered.
  rewrite (for_each_print _ _ (λ '(i, sku), fmt_int i ++ py ". " ++ sku))
    by (by intros [i sku]).
  f_equal. exact (enumerate_lines missing 1).
Qed.

Lemma print_missing_run (missing : list pystr) :
  print_missing missing = (stdout (print_missing missing), inr tt).
Proof.
  unfold print_missing.
  destruct (truthy_list missing && (len missing <? 10)).
  - by rewrite print_numbered_run.
  - by destruct (truthy_list missing).
Qed.

Lemma print_all_missing_run (missing : list pystr) :
  print_all_missing missing = (stdout (print_all_missing missing), inr tt).
Proof.
  unfold print_all_missing. destruct (truthy_list missing); [|done].
  by rewrite print_numbered_run.
Qed.

(** A run of [analyze_csv] on a file that opens and whose rows the loop
    accepts. *)
Lemma analyze_csv_run (fs : filesystem) (filepath : pystr)
    (lines : list (list pystr)) (st : locals) :
  fs !! filepath = Some lines →
  count_rows (DictReader lines) = inr st →
  analyze_csv fs filepath
  = ((nl ++ py "Analyzing: " ++ filepath)
       :: stdout (print_counters st)
       ++ stdout (print_missing (missing_url_skus st)),
     inr (stats_of st)).
Proof.
  intros Hfs Hrun. unfold analyze_csv, open. rewrite Hfs.
  cbn [mbind M_bind print mret M_ret lift]. rewrite Hrun.
  pose proof (print_missing_run (missing_url_skus st)) as Hm.
  destruct (print_missing (missing_url_skus st)) as [out r].
  injection Hm as ->. simpl. by rewrite ?app_nil_r.
Qed.

(** On a file that opens and whose rows are textual, [analyze_csv]
    returns the four counters of the per-row rule. *)
Lemma analyze_csv_audit (fs : filesystem) (filepath : pystr)
    (lines : list (list pystr)) :
  fs !! filepath = Some lines →
  Forall textual (DictReader lines) →
  ∃ st, outcome (analyze_csv fs filepath) = inr (stats_of st)
        ∧ result_of st = Spec.audit (DictReader lines).
Proof.
  intros Hfs Hall.
  destruct (count_from_textual _ init_locals Hall) as (st & Hrun & Hres).
  exists st. split; [|exact Hres].
  by rewrite (analyze_csv_run fs filepath lines st Hfs Hrun).
Qed.

Lemma check_missing_urls_run (fs : filesystem) (lines : list (list pystr))
    (st : locals) :
  fs !! apr_path = Some lines →
  count_rows (DictReader lines) = inr st →
  check_missing_urls fs
  = (stdout (print_counters st)
       ++ stdout (print_all_missing (missing_url_skus st)),
     inr tt).
Proof.
  intros Hfs Hrun. unfold check_missing_urls, open. rewrite Hfs.
  cbn [mbind M_bind print mret M_ret lift]. rewrite Hrun.
  pose proof (print_all_missing_run (missing_url_skus st)) as Hm.
  destruct (print_all_missing (missing_url_skus st)) as [out r].
  injection Hm as ->. simpl. by rewrite ?app_nil_r.
Qed.

Lemma print_missing_cases (missing : list pystr) :
  let n := length missing in
  (n = 0%nat → stdout (print_missing missing) = [])
  ∧ ((1 ≤ n < 10)%nat →
     stdout (print_missing missing)
     = (nl ++ py "SKUs missing URLs:") :: imap (λ i, numbered_line (S i)) missing)
  ∧ ((10 ≤ n)%nat →
     stdout (print_missing missing)
     = [nl ++ py "Found " ++ fmt_int (Z.of_nat n)
           ++ py " SKUs missing URLs (too many to list)"]).
Proof.
  unfold print_missing, len. destruct missing as [|s missing]; simpl.
  { split_and!; [done | lia | lia]. }
  set (n := S (length missing)).
  destruct (Z.ltb_spec (Z.of_nat n) 10) as [Hlt|Hge].
  - split_and!; [done | | lia]. intros _.
    rewrite print_numbered_run. reflexivity.
  - split_and!; [done | lia | done].
Qed.

Lemma print_all_missing_stdout (missing : list pystr) :
  stdout (print_all_missing missing) = full_listing missing.
Proof.
  unfold print_all_missing. destruct missing as [|s missing]; [done|].
  cbn [truthy_list]. by rewrite print_numbered_run.
Qed.

Lemma print_missing_threshold (missing : list pystr) :
  threshold_rule missing (stdout (print_missing missing)).
Proof.
  destruct (print_missing_cases missing) as (H0 & H1 & H10).
  unfold threshold_rule. split_and!.
  - exact H0.
  - intros Hn i identifier Hi. rewrite (H1 Hn).
    apply list_elem_of_further, list_elem_of_lookup. exists i.
    by rewrite list_lookup_imap, Hi.
  - intros Hn. rewrite (H10 Hn).
    exists (nl ++ py "Found "), (py " SKUs missing URLs (too many to list)").
    reflexivity.
Qed.

(** C4 (as the code has it): when the file opens and the loop returns,
    [analyze_csv] prints, after the five counter lines, a listing that
    follows the threshold rule: nothing for no missing identifier, the
    heading and one numbered line per identifier for one to nine, and
    the single "Found <n> SKUs missing URLs (too many to list)" text for
    ten or more. [check_missing_urls.py] has no threshold: it prints the
    heading and one numbered line per identifier for any positive
    count, and nothing for none. *)
Theorem listing_rule (fs : filesystem) (filepath : pystr)
    (lines : list (list pystr)) (st : locals) :
  fs !! filepath = Some lines →
  count_rows (DictReader lines) = inr st →
  let missing := missing_url_skus st in
  let n := length missing in
  (∃ listing,
     stdout (analyze_csv fs filepath)
     = (nl ++ py "Analyzing: " ++ filepath)
         :: stdout (print_counters st) ++ listing
     ∧ threshold_rule missing listing
     ∧ (n = 0%nat → listing = [])
     ∧ ((1 ≤ n < 10)%nat →
        listing = (nl ++ py "SKUs missing URLs:")
                    :: imap (λ i, numbered_line (S i)) missing)
     ∧ ((10 ≤ n)%nat →
        listing = [nl ++ py "Found " ++ fmt_int (Z.of_nat n)
                      ++ py " SKUs missing URLs (too many to list)"]))
  ∧ (filepath = apr_path →
     ∃ listing,
       stdout (check_missing_urls fs) = stdout (print_counters st) ++ listing
       ∧ (n = 0%nat → listing = [])
       ∧ ((1 ≤ n)%nat →
          listing = (nl ++ py "SKUs missing URLs:")
                      :: imap (λ i, numbered_line (S i)) missing)).
Proof.
  intros Hfs Hrun missing n. split.
  - exists (stdout (print_missing missing)).
    rewrite (analyze_csv_run fs filepath lines st Hfs Hrun).
    destruct (print_missing_cases missing) as (H0 & H1 & H10).
    split_and!; [done | apply print_missing_threshold | done..].
  - intros ->. exists (full_listing missing).
    rewrite (check_missing_urls_run fs lines st Hfs Hrun).
    rewrite print_all_missing_stdout. subst n.
    split_and!; [done | |]; destruct missing; simpl; (done || lia).
Qed.

Lemma listing_rule_example :
  let fs : filesystem := {[ apr_path := unlinked_lines 12 ]} in
  ∃ listing,
    stdout (analyze_csv fs apr_path)
    = (nl ++ py "Analyzing: " ++ apr_path)
        :: stdout (print_counters (Locals 12 12 0 0 (replicate 12 (py "S"))))
        ++ listing
    ∧ listing = [nl ++ py "Found 12 SKUs missing URLs (too many to list)"].
Proof.
  intros fs.
  assert (Hfs : fs !! apr_path = Some (unlinked_lines 12))
    by (vm_compute; reflexivity).
  assert (Hrun : count_rows (DictReader (unlinked_lines 12))
                 = inr (Locals 12 12 0 0 (replicate 12 (py "S"))))
    by (vm_compute; reflexivity).
  destruct (proj1 (listing_rule fs apr_path _ _ Hfs Hrun))
    as (listing & Hout & _ & _ & _ & H10).
  exists listing. split; [exact Hout|].
  rewrite H10 by (vm_compute; lia). vm_compute. reflexivity.
Defined.

(** C4 (as stated) fails on [check_missing_urls.py]: with ten rows that
    have an identifier and no link it prints the heading and ten numbered
    lines, not a single line with the count. *)
Lemma check_missing_urls_lists_ten :
  let fs : filesystem := {[ apr_path := unlinked_lines 10 ]} in
  ∃ (st : locals) (listing : list pystr),
    count_rows (DictReader (unlinked_lines 10)) = inr st
    ∧ stdout (check_missing_urls fs) = stdout (print_counters st) ++ listing
    ∧ length listing = 11%nat
    ∧ ¬ threshold_rule (missing_url_skus st) listing.
Proof.
  intros fs.
  exists (Locals 10 10 0 0 (replicate 10 (py "S"))),
         (full_listing (replicate 10 (py "S"))).
  split_and!; try (vm_compute; reflexivity).
  intros (_ & _ & H10). destruct H10 as (pre & post & Heq).
  - vm_compute. lia.
  - apply (f_equal length) in Heq. vm_compute in Heq. discriminate.
Qed.

(** ** Rows that the loop cannot read *)

(** C3 fails on a line with fewer cells than the header: [DictReader]
    stores [None] under 'Origin URL', [row.get] returns that [None]
    instead of the default, and [.strip()] raises [AttributeError], in
    [analyze_csv] after its first line of output and in
    [check_missing_urls.py] before any output. *)
Theorem short_row_raises :
  let fs : filesystem := {[ apr_path := short_lines ]} in
  DictReader short_lines
    = [ {[ Some SKU := PyStr (py "A"); Some Origin_URL := PyNone ]} ]
  ∧ analyze_csv fs apr_path
    = ([nl ++ py "Analyzing: " ++ apr_path], inl AttributeError)
  ∧ check_missing_urls fs = ([], inl AttributeError).
Proof. vm_compute. split_and!; reflexivity. Qed.

(** A row without either designated key only counts in the total. *)
Lemma loop_body_absent (st : locals) (r : row) :
  r !! Some SKU = None → r !! Some Origin_URL = None →
  loop_body st r
  = inr (Locals (total_rows st + 1) (rows_with_skus st) (rows_with_urls st)
           (rows_with_both st) (missing_url_skus st)).
Proof.
  intros Hs Hu. unfold loop_body, dict_get. by rewrite Hs, Hu.
Qed.

(** ** Grand totals *)

Lemma stats_eq (a b : stats) :
  total a = total b → with_skus a = with_skus b →
  with_urls a = with_urls b → with_both a = with_both b → a = b.
Proof. destruct a, b; simpl; congruence. Qed.

Lemma sum_results_comm (a b : stats) : sum_results a b = sum_results b a.
Proof. apply stats_eq; simpl; lia. Qed.

Lemma sum_results_assoc (a b c : stats) :
  sum_results (sum_results a b) c = sum_results a (sum_results b c).
Proof. apply stats_eq; simpl; lia. Qed.

Lemma grand_totals_sum (a b c : stats) :
  grand_totals a b c = sum_results (sum_results a b) c.
Proof. reflexivity. Qed.

Lemma summarize_perm (results results' : list stats) :
  results ≡ₚ results' → summarize results = summarize results'.
Proof.
  induction 1 as [|x l l' _ IH|x y l|l1 l2 l3 _ IH1 _ IH2]; simpl.
  - reflexivity.
  - by rewrite IH.
  - rewrite <- !sum_results_assoc. f_equal. apply sum_results_comm.
  - by rewrite IH1.
Qed.

(** C5: the four grand totals of the module body are the elementwise sum
    of the three returned dictionaries, which hold the four counters and
    no identifier list, so that the totals do not depend on the missing
    lists; sources with totals 10, 5, 3, identifier counts 2, 1, 0 and
    with-both counts 1, 1, 0 sum to a total of 18, 3 with an identifier
    and 2 with both. *)
Theorem grand_totals_elementwise :
  (∀ apr_stats artec_stats bilstein_stats : stats,
     grand_totals apr_stats artec_stats bilstein_stats
     = summarize [apr_stats; artec_stats; bilstein_stats]
     ∧ total_records apr_stats artec_stats bilstein_stats
       = total apr_stats + total artec_stats + total bilstein_stats
     ∧ total_with_skus apr_stats artec_stats bilstein_stats
       = with_skus apr_stats + with_skus artec_stats + with_skus bilstein_stats
     ∧ total_with_urls apr_stats artec_stats bilstein_stats
       = with_urls apr_stats + with_urls artec_stats + with_urls bilstein_stats
     ∧ total_with_both apr_stats artec_stats bilstein_stats
       = with_both apr_stats + with_both artec_stats + with_both bilstein_stats)
  ∧ (∀ (t s u b : Z) (missing missing' : list pystr),
       stats_of (Locals t s u b missing) = stats_of (Locals t s u b missing'))
  ∧ (∀ u1 u2 u3 : Z,
       grand_totals (Stats 10 2 u1 1) (Stats 5 1 u2 1) (Stats 3 0 u3 0)
       = Stats 18 3 (u1 + u2 + u3) 2).
Proof.
  split_and!.
  - intros a b c. split_and!; try reflexivity.
    unfold grand_totals, total_records, total_with_skus, total_with_urls,
      total_with_both, summarize.
    apply stats_eq; cbn; lia.
  - reflexivity.
  - intros u1 u2 u3. reflexivity.
Qed.

(** C5 (as stated) fails in its example: the with-both counts 1, 1 and 0
    sum to 2, not 3; it is the identifier counts 2, 1 and 0 that sum
    to 3. *)
Lemma example_with_both_is_two :
  let apr_stats := Stats 10 2 1 1 in
  let artec_stats := Stats 5 1 1 1 in
  let bilstein_stats := Stats 3 0 0 0 in
  total_records apr_stats artec_stats bilstein_stats = 18
  ∧ total_with_skus apr_stats artec_stats bilstein_stats = 3
  ∧ total_with_both apr_stats artec_stats bilstein_stats = 2
  ∧ total_with_both apr_stats artec_stats bilstein_stats ≠ 3.
Proof. vm_compute. split_and!; congruence. Qed.

(** C8: the elementwise sum of results is commutative and associative,
    the grand totals of the module body are that sum over the three
    sources, and neither the grand totals nor the sum over a sequence of
    results change when the sources are taken in another order. *)
Theorem summation_order_irrelevant :
  (∀ a b : stats, sum_results a b = sum_results b a)
  ∧ (∀ a b c : stats,
       sum_results (sum_results a b) c = sum_results a (sum_results b c))
  ∧ (∀ a b c : stats, grand_totals a b c = sum_results (sum_results a b) c)
  ∧ (∀ a b c : stats,
       grand_totals a b c = grand_totals a c b
       ∧ grand_totals a b c = grand_totals b a c
       ∧ grand_totals a b c = grand_totals b c a
       ∧ grand_totals a b c = grand_totals c a b
       ∧ grand_totals a b c = grand_totals c b a)
  ∧ (∀ results results' : list stats,
       results ≡ₚ results' → summarize results = summarize results').
Proof.
  split_and!.
  - apply sum_results_comm.
  - apply sum_results_assoc.
  - apply grand_totals_sum.
  - intros a b c.
    unfold grand_totals, total_records, total_with_skus, total_with_urls,
      total_with_both.
    split_and!; apply stats_eq; cbn; lia.
  - apply summarize_perm.
Qed.

Lemma summation_order_irrelevant_example :
  [Stats 10 2 1 1; Stats 5 1 1 1; Stats 3 0 0 0]
    ≡ₚ [Stats 3 0 0 0; Stats 10 2 1 1; Stats 5 1 1 1]
  ∧ summarize [Stats 10 2 1 1; Stats 5 1 1 1; Stats 3 0 0 0]
    = summarize [Stats 3 0 0 0; Stats 10 2 1 1; Stats 5 1 1 1].
Proof.
  assert (H : [Stats 10 2 1 1; Stats 5 1 1 1; Stats 3 0 0 0]
                ≡ₚ [Stats 3 0 0 0; Stats 10 2 1 1; Stats 5 1 1 1]).
  { change ([Stats 10 2 1 1; Stats 5 1 1 1] ++ [Stats 3 0 0 0]
              ≡ₚ [Stats 3 0 0 0] ++ [Stats 10 2 1 1; Stats 5 1 1 1]).
    apply Permutation_app_comm. }
  split; [exact H|].
  exact (proj2 (proj2 (proj2 (proj2 summation_order_irrelevant))) _ _ H).
Defined.

(** ** The summary block of [check_csv_urls.py] *)

(** C6 (as the code has it): when the three analyses return, the module
    body prints their reports followed by the header "=== SUMMARY ==="
    (after a blank line) and four lines: the total number of records,
    the number with SKUs, with URLs, and with both, each summed over the
    three sources. *)
Theorem summary_block (fs : filesystem)
    (apr_stats artec_stats bilstein_stats : stats)
    (out1 out2 out3 : list pystr) :
  analyze_csv fs apr_path = (out1, inr apr_stats) →
  analyze_csv fs artec_path = (out2, inr artec_stats) →
  analyze_csv fs bilstein_path = (out3, inr bilstein_stats) →
  check_csv_urls fs
  = (out1 ++ out2 ++ out3 ++
     [ nl ++ py "=== SUMMARY ===";
       py "Total records across all CSVs: "
         ++ fmt_int (total apr_stats + total artec_stats + total bilstein_stats);
       py "Total records with SKUs: "
         ++ fmt_int (with_skus apr_stats + with_skus artec_stats
                     + with_skus bilstein_stats);
       py "Total records with URLs: "
         ++ fmt_int (with_urls apr_stats + with_urls artec_stats
                     + with_urls bilstein_stats);
       py "Total records with both SKU and URL: "
         ++ fmt_int (with_both apr_stats + with_both artec_stats
                     + with_both bilstein_stats) ],
     inr tt).
Proof.
  intros H1 H2 H3. unfold check_csv_urls. rewrite H1, H2, H3.
  reflexivity.
Qed.

Lemma summary_block_example :
  ∃ out1 out2 out3 : list pystr,
    analyze_csv three_files apr_path = (out1, inr (Stats 4 2 2 1))
    ∧ analyze_csv three_files artec_path = (out2, inr (Stats 0 0 0 0))
    ∧ analyze_csv three_files bilstein_path = (out3, inr (Stats 2 2 0 0))
    ∧ check_csv_urls three_files
      = (out1 ++ out2 ++ out3 ++
         [ nl ++ py "=== SUMMARY ===";
           py "Total records across all CSVs: 6";
           py "Total records with SKUs: 4";
           py "Total records with URLs: 2";
           py "Total records with both SKU and URL: 1" ],
         inr tt).
Proof.
  eexists _, _, _.
  assert (H1 : analyze_csv three_files apr_path
               = (stdout (analyze_csv three_files apr_path),
                  inr (Stats 4 2 2 1))) by (vm_compute; reflexivity).
  assert (H2 : analyze_csv three_files artec_path
               = (stdout (analyze_csv three_files artec_path),
                  inr (Stats 0 0 0 0))) by (vm_compute; reflexivity).
  assert (H3 : analyze_csv three_files bilstein_path
               = (stdout (analyze_csv three_files bilstein_path),
                  inr (Stats 2 2 0 0))) by (vm_compute; reflexivity).
  split_and!; [exact H1 | exact H2 | exact H3 |].
  exact (summary_block three_files _ _ _ _ _ _ H1 H2 H3).
Defined.

(** C6 (as stated) fails: on the three sample files, which hold three
    rows with an identifier and no link, the summary block is the header
    and four lines; no line for the rows with an SKU but no URL is
    printed. *)
Lemma summary_has_four_lines :
  (∃ pre : list pystr,
     stdout (check_csv_urls three_files)
     = pre ++ [ nl ++ py "=== SUMMARY ===";
                py "Total records across all CSVs: 6";
                py "Total records with SKUs: 4";
                py "Total records with URLs: 2";
                py "Total records with both SKU and URL: 1" ]
     ∧ last pre = Some (py "2. S"))
  ∧ ¬ five_line_summary (stdout (check_csv_urls three_files)).
Proof.
  split.
  - exists (stdout (analyze_csv three_files apr_path)
            ++ stdout (analyze_csv three_files artec_path)
            ++ stdout (analyze_csv three_files bilstein_path)).
    vm_compute. split; reflexivity.
  - intros (pre & h & l1 & l2 & l3 & l4 & l5 & Hh & Heq).
    apply (f_equal (@rev pystr)) in Heq. rewrite rev_app_distr in Heq.
    vm_compute in Heq. injection Heq as _ _ _ _ _ Hsix _.
    destruct Hh as [->| ->]; vm_compute in Hsix; discriminate.
Qed.

(** ** Trimming *)

Lemma lstrip_split (s : pystr) :
  ∃ pre, s = pre ++ lstrip s ∧ Forall (λ c, isspace c = true) pre.
Proof.
  induction s as [|c s (pre & Hs & Hpre)]; simpl.
  - by exists [].
  - destruct (isspace c) eqn:Hc.
    + exists (c :: pre). split; [simpl; congruence | by constructor].
    + by exists [].
Qed.

Lemma lstrip_head (s : pystr) (c : codepoint) :
  head (lstrip s) = Some c → isspace c = false.
Proof.
  induction s as [|c' s IH]; simpl; [done|].
  destruct (isspace c') eqn:Hc; [done|]. simpl. congruence.
Qed.

Lemma rstrip_split (s : pystr) :
  ∃ post, s = rstrip s ++ post ∧ Forall (λ c, isspace c = true) post.
Proof.
  destruct (lstrip_split (reverse s)) as (pre & Hs & Hpre).
  exists (reverse pre). split; [|by apply Forall_reverse].
  unfold rstrip. rewrite <- reverse_app, <- Hs. by rewrite reverse_involutive.
Qed.

Lemma rstrip_last (s : pystr) (c : codepoint) :
  last (rstrip s) = Some c → isspace c = false.
Proof. unfold rstrip. rewrite last_reverse. apply lstrip_head. Qed.

(** [strip] removes a run of white space at each end and leaves a text
    that neither starts nor ends with white space. *)
Lemma strip_spec (s : pystr) :
  ∃ pre post,
    s = pre ++ strip s ++ post
    ∧ Forall (λ c, isspace c = true) pre
    ∧ Forall (λ c, isspace c = true) post
    ∧ (∀ c, head (strip s) = Some c → isspace c = false)
    ∧ (∀ c, last (strip s) = Some c → isspace c = false).
Proof.
  destruct (lstrip_split s) as (pre & Hs & Hpre).
  destruct (rstrip_split (lstrip s)) as (post & Ht & Hpost).
  exists pre, post. unfold strip. split_and!; try done.
  - by rewrite <- Ht.
  - intros c Hc. apply (lstrip_head s). rewrite Ht.
    destruct (rstrip (lstrip s)); [done|exact Hc].
  - apply rstrip_last.
Qed.

(** ** Rows of well-formed files *)

Lemma dict_zip_all_text (fieldnames cells : list pystr) (d : row) :
  all_text d → all_text (dict_zip fieldnames cells d).
Proof.
  revert cells d. induction fieldnames as [|k ks IH]; intros cells d Hd; [done|].
  destruct cells as [|v vs]; [done|]. simpl. apply IH.
  intros k' v'. rewrite lookup_insert. case_decide; [by intros [= <-]|apply Hd].
Qed.

Lemma all_text_textual (d : row) : all_text d → textual d.
Proof.
  intros Hd. unfold textual, dict_get.
  split.
  - destruct (d !! Some SKU) as [v|] eqn:Hv; [by apply (Hd SKU)|done].
  - destruct (d !! Some Origin_URL) as [v|] eqn:Hv;
      [by apply (Hd Origin_URL)|done].
Qed.

(** A line with at least as many cells as the header gives a textual
    row: surplus cells are stored apart and do no harm. *)
Lemma dict_row_textual (fieldnames cells : list pystr) :
  (length fieldnames ≤ length cells)%nat → textual (dict_row fieldnames cells).
Proof.
  intros Hlen. apply all_text_textual. unfold dict_row.
  assert (Hzip : all_text (dict_zip fieldnames cells ∅)).
  { apply dict_zip_all_text. intros k v. by rewrite lookup_empty. }
  destruct (Nat.ltb_spec (length fieldnames) (length cells)).
  - intros k v. rewrite lookup_insert_ne by done. apply Hzip.
  - destruct (Nat.ltb_spec (length cells) (length fieldnames)); [lia|done].
Qed.

(** On a file without short lines the loop returns. *)
Lemma DictReader_textual (fieldnames : list pystr) (rest : list (list pystr)) :
  Forall (λ cells, cells = [] ∨ (length fieldnames ≤ length cells)%nat) rest →
  Forall textual (DictReader (fieldnames :: rest)).
Proof.
  intros Hall. simpl. apply Forall_fmap, Forall_forall.
  intros cells [Hblank Hin]%list_elem_of_filter.
  rewrite Forall_forall in Hall. destruct (Hall cells Hin) as [->|Hlen].
  - done.
  - by apply dict_row_textual.
Qed.

(** * Part III: further properties of the scripts *)

(** ** The counters as numbers of rows *)

Lemma locals_eq (a b : locals) :
  total_rows a = total_rows b → rows_with_skus a = rows_with_skus b →
  rows_with_urls a = rows_with_urls b → rows_with_both a = rows_with_both b →
  missing_url_skus a = missing_url_skus b → a = b.
Proof. destruct a, b; simpl; congruence. Qed.

Lemma len_cons {A} (x : A) (l : list A) : len (x :: l) = len l + 1.
Proof. unfold len. simpl. lia. Qed.

Lemma len_filter_cons {A} (p : A → bool) (x : A) (l : list A) :
  len (filter (λ y, p y) (x :: l))
  = len (filter (λ y, p y) l) + (if p x then 1 else 0).
Proof.
  rewrite (filter_cons (λ y, p y)). destruct (decide (p x)) as [H|H].
  - rewrite len_cons. destruct (p x); [lia|done].
  - destruct (p x); [by destruct H|lia].
Qed.

(** One pass of the loop body, in terms of [has_sku] and [has_url]. *)
Lemma loop_body_counts (st st' : locals) (r : row) :
  loop_body st r = inr st' →
  total_rows st' = total_rows st + 1
  ∧ rows_with_skus st' = rows_with_skus st + (if has_sku r then 1 else 0)
  ∧ rows_with_urls st' = rows_with_urls st + (if has_url r then 1 else 0)
  ∧ rows_with_both st'
    = rows_with_both st + (if has_sku r && has_url r then 1 else 0).
Proof.
  unfold loop_body, has_sku, has_url, field.
  destruct (call_strip (dict_get r SKU _)) as [?|sku]; [done|].
  destruct (call_strip (dict_get r Origin_URL _)) as [?|url]; [done|].
  intros [= <-]. simpl.
  destruct (truthy sku), (truthy url); simpl; lia.
Qed.

Lemma count_from_counts (reader : list row) (st st' : locals) :
  count_from st reader = inr st' →
  total_rows st' = total_rows st + len reader
  ∧ rows_with_skus st'
    = rows_with_skus st + len (filter (λ r, has_sku r) reader)
  ∧ rows_with_urls st'
    = rows_with_urls st + len (filter (λ r, has_url r) reader)
  ∧ rows_with_both st'
    = rows_with_both st
      + len (filter (λ r, has_sku r && has_url r) reader).
Proof.
  revert st. induction reader as [|r reader IH]; intros st; simpl.
  - intros [= <-]. unfold len. simpl. lia.
  - destruct (loop_body st r) as [?|st1] eqn:Hbody; [done|].
    intros Hrest. apply IH in Hrest as (Ht & Hs & Hu & Hb).
    apply loop_body_counts in Hbody as (Ht1 & Hs1 & Hu1 & Hb1).
    rewrite len_cons, (len_filter_cons has_sku), (len_filter_cons has_url),
      (len_filter_cons (λ r, has_sku r && has_url r)).
    lia.
Qed.

(** X1: when the loop returns, each counter is a number of rows: the
    total is the number of rows read, and the other three are the numbers
    of rows whose trimmed identifier is non-empty, whose trimmed link is
    non-empty, and for which both are; the loop fails to return only on
    a row that is not textual. *)
Theorem counters_are_row_counts (reader : list row) :
  match count_rows reader with
  | inr st =>
      total_rows st = len reader
      ∧ rows_with_skus st = len (filter (λ r, has_sku r) reader)
      ∧ rows_with_urls st = len (filter (λ r, has_url r) reader)
      ∧ rows_with_both st
        = len (filter (λ r, has_sku r && has_url r) reader)
  | inl _ => ¬ Forall textual reader
  end.
Proof.
  destruct (count_rows reader) as [e|st] eqn:Hrun.
  - by apply (count_from_raises reader init_locals e).
  - apply count_from_counts in Hrun. simpl in Hrun. lia.
Qed.

Lemma filter_either_bound {A} (p q : A → bool) (l : list A) :
  0 ≤ len (filter (λ x, p x && q x) l)
  ∧ len (filter (λ x, p x) l) + len (filter (λ x, q x) l)
    - len (filter (λ x, p x && q x) l) ≤ len l.
Proof.
  induction l as [|x l [IH0 IH]]; [unfold len; simpl; lia|].
  rewrite len_cons, (len_filter_cons p), (len_filter_cons q),
    (len_filter_cons (λ x, p x && q x)).
  destruct (p x), (q x); simpl; lia.
Qed.

(** X2: when the loop returns, no counter is negative and the rows with
    an identifier or a link (those with an identifier, plus those with a
    link, minus those with both) are at most the total, so that the
    number of rows with neither field is never negative. *)
Theorem counters_inclusion_exclusion (reader : list row) :
  match count_rows reader with
  | inr st =>
      0 ≤ rows_with_both st
      ∧ 0 ≤ rows_with_skus st ∧ 0 ≤ rows_with_urls st ∧ 0 ≤ total_rows st
      ∧ rows_with_skus st + rows_with_urls st - rows_with_both st
        ≤ total_rows st
  | inl _ => ¬ Forall textual reader
  end.
Proof.
  destruct (count_rows reader) as [e|st] eqn:Hrun.
  - by apply (count_from_raises reader init_locals e).
  - assert (Hinit : counters_inv init_locals)
      by (vm_compute; intuition congruence).
    destruct (count_from_inv reader _ _ Hinit Hrun) as (H0 & Hs & Hu & _).
    apply count_from_counts in Hrun as (Ht & Hs' & Hu' & Hb'). simpl in *.
    destruct (filter_either_bound has_sku has_url reader) as [_ Hie].
    lia.
Qed.

(** ** Rows taken together and in another order *)

Lemma add_locals_init (st : locals) : add_locals st init_locals = st.
Proof.
  apply locals_eq; simpl; rewrite ?app_nil_r; (lia || reflexivity).
Qed.

Lemma loop_body_add (base st : locals) (r : row) :
  loop_body (add_locals base st) r
  = match loop_body st r with
    | inl e => inl e
    | inr st' => inr (add_locals base st')
    end.
Proof.
  unfold loop_body.
  destruct (call_strip (dict_get r SKU _)) as [?|sku]; [done|].
  destruct (call_strip (dict_get r Origin_URL _)) as [?|url]; [done|].
  f_equal. apply locals_eq; simpl;
    destruct (truthy sku), (truthy url); simpl;
    rewrite ?app_assoc; (lia || reflexivity).
Qed.

Lemma count_from_add (reader : list row) (base st : locals) :
  count_from (add_locals base st) reader
  = match count_from st reader with
    | inl e => inl e
    | inr st' => inr (add_locals base st')
    end.
Proof.
  revert st. induction reader as [|r reader IH]; intros st; simpl; [done|].
  rewrite loop_body_add. destruct (loop_body st r) as [?|st1]; [done|apply IH].
Qed.

Lemma count_from_app (reader1 reader2 : list row) (st : locals) :
  count_from st (reader1 ++ reader2)
  = match count_from st reader1 with
    | inl e => inl e
    | inr st1 => count_from st1 reader2
    end.
Proof.
  revert st. induction reader1 as [|r reader1 IH]; intros st; simpl; [done|].
  destruct (loop_body st r) as [?|st1]; [done|apply IH].
Qed.

Lemma count_rows_app (reader1 reader2 : list row) :
  count_rows (reader1 ++ reader2)
  = match count_rows reader1, count_rows reader2 with
    | inl e, _ => inl e
    | inr _, inl e => inl e
    | inr st1, inr st2 => inr (add_locals st1 st2)
    end.
Proof.
  unfold count_rows. rewrite count_from_app.
  destruct (count_from init_locals reader1) as [?|st1]; [done|].
  rewrite <- (add_locals_init st1) at 1. rewrite count_from_add.
  by destruct (count_from init_locals reader2).
Qed.

(** X3: the loop over two inputs one after the other gives the sum of
    the two loops: it raises what the first raises, else what the second
    raises, else it returns the counters added and the two missing lists
    one after the other. *)
Theorem audit_of_concatenation (reader1 reader2 : list row) :
  count_rows (reader1 ++ reader2)
  = match count_rows reader1, count_rows reader2 with
    | inl e, _ => inl e
    | inr _, inl e => inl e
    | inr st1, inr st2 =>
        inr (Locals (total_rows st1 + total_rows st2)
               (rows_with_skus st1 + rows_with_skus st2)
               (rows_with_urls st1 + rows_with_urls st2)
               (rows_with_both st1 + rows_with_both st2)
               (missing_url_skus st1 ++ missing_url_skus st2))
    end.
Proof. apply count_rows_app. Qed.

(** A run of [analyze_csv] that returns comes from a file that opens and
    a loop that returns. *)
Lemma analyze_csv_returns (fs : filesystem) (filepath : pystr)
    (out : list pystr) (result : stats) :
  analyze_csv fs filepath = (out, inr result) →
  ∃ lines st, fs !! filepath = Some lines
              ∧ count_rows (DictReader lines) = inr st
              ∧ result = stats_of st.
Proof.
  intros Hrun. destruct (fs !! filepath) as [lines|] eqn:Hfs.
  - destruct (count_rows (DictReader lines)) as [e|st] eqn:Hcount.
    + unfold analyze_csv, open in Hrun. rewrite Hfs in Hrun.
      cbn [mbind M_bind print mret M_ret lift] in Hrun.
      rewrite Hcount in Hrun. simpl in Hrun. congruence.
    + rewrite (analyze_csv_run fs filepath lines st Hfs Hcount) in Hrun.
      exists lines, st. split_and!; congruence.
  - unfold analyze_csv, open in Hrun. rewrite Hfs in Hrun.
    simpl in Hrun. congruence.
Qed.

(** X4: when the three analyses of [check_csv_urls.py] return, the four
    grand totals are the counters of one loop over the rows of the three
    files taken together, in the order of the calls. *)
Theorem grand_totals_of_merged_rows (fs : filesystem)
    (apr_stats artec_stats bilstein_stats : stats)
    (out1 out2 out3 : list pystr) :
  analyze_csv fs apr_path = (out1, inr apr_stats) →
  analyze_csv fs artec_path = (out2, inr artec_stats) →
  analyze_csv fs bilstein_path = (out3, inr bilstein_stats) →
  ∃ lines1 lines2 lines3 st,
    fs !! apr_path = Some lines1
    ∧ fs !! artec_path = Some lines2
    ∧ fs !! bilstein_path = Some lines3
    ∧ count_rows (DictReader lines1 ++ DictReader lines2 ++ DictReader lines3)
      = inr st
    ∧ total_records apr_stats artec_stats bilstein_stats = total_rows st
    ∧ total_with_skus apr_stats artec_stats bilstein_stats = rows_with_skus st
    ∧ total_with_urls apr_stats artec_stats bilstein_stats = rows_with_urls st
    ∧ total_with_both apr_stats artec_stats bilstein_stats = rows_with_both st.
Proof.
  intros (l1 & s1 & Hf1 & Hc1 & ->)%analyze_csv_returns
         (l2 & s2 & Hf2 & Hc2 & ->)%analyze_csv_returns
         (l3 & s3 & Hf3 & Hc3 & ->)%analyze_csv_returns.
  exists l1, l2, l3. eexists. split_and!; [done..| | | | |].
  - rewrite !count_rows_app, Hc1, Hc2, Hc3. reflexivity.
  - unfold total_records. simpl. lia.
  - unfold total_with_skus. simpl. lia.
  - unfold total_with_urls. simpl. lia.
  - unfold total_with_both. simpl. lia.
Qed.

Lemma grand_totals_of_merged_rows_example :
  ∃ out1 out2 out3 : list pystr,
    analyze_csv three_files apr_path = (out1, inr (Stats 4 2 2 1))
    ∧ analyze_csv three_files artec_path = (out2, inr (Stats 0 0 0 0))
    ∧ analyze_csv three_files bilstein_path = (out3, inr (Stats 2 2 0 0))
    ∧ ∃ lines1 lines2 lines3 st,
        three_files !! apr_path = Some lines1
        ∧ three_files !! artec_path = Some lines2
        ∧ three_files !! bilstein_path = Some lines3
        ∧ count_rows (DictReader lines1 ++ DictReader lines2
                      ++ DictReader lines3) = inr st
        ∧ 4 + 0 + 2 = total_rows st
        ∧ 2 + 0 + 2 = rows_with_skus st
        ∧ 2 + 0 + 0 = rows_with_urls st
        ∧ 1 + 0 + 0 = rows_with_both st.
Proof.
  assert (H1 : analyze_csv three_files apr_path
               = (stdout (analyze_csv three_files apr_path),
                  inr (Stats 4 2 2 1))) by (vm_compute; reflexivity).
  assert (H2 : analyze_csv three_files artec_path
               = (stdout (analyze_csv three_files artec_path),
                  inr (Stats 0 0 0 0))) by (vm_compute; reflexivity).
  assert (H3 : analyze_csv three_files bilstein_path
               = (stdout (analyze_csv three_files bilstein_path),
                  inr (Stats 2 2 0 0))) by (vm_compute; reflexivity).
  eexists _, _, _. split_and!; [exact H1 | exact H2 | exact H3 |].
  exact (grand_totals_of_merged_rows three_files _ _ _ _ _ _ H1 H2 H3).
Defined.

(** X5: the order of the rows does not matter to the counters: on two
    inputs that hold the same rows in different orders the loop either
    returns on both, with the same four counters and with missing lists
    that hold the same identifiers the same number of times, or raises
    on both. *)
Theorem row_order_irrelevant (reader reader' : list row) :
  reader ≡ₚ reader' →
  match count_rows reader, count_rows reader' with
  | inr st, inr st' =>
      stats_of st = stats_of st'
      ∧ missing_url_skus st ≡ₚ missing_url_skus st'
  | inl e, inl e' => e = e'
  | _, _ => False
  end.
Proof.
  intros Hperm.
  destruct (count_rows reader) as [e|st] eqn:Hrun;
    destruct (count_rows reader') as [e'|st'] eqn:Hrun'.
  - apply count_from_raises in Hrun as [-> _].
    by apply count_from_raises in Hrun' as [-> _].
  - apply count_from_raises in Hrun as [_ Hbad]. apply Hbad.
    rewrite Hperm. apply (count_from_ok_iff reader' init_locals). eauto.
  - apply count_from_raises in Hrun' as [_ Hbad]. apply Hbad.
    rewrite <- Hperm. apply (count_from_ok_iff reader init_locals). eauto.
  - split.
    + apply count_from_counts in Hrun as (Ht & Hs & Hu & Hb).
      apply count_from_counts in Hrun' as (Ht' & Hs' & Hu' & Hb').
      unfold len in *. rewrite Hperm in Ht, Hs, Hu, Hb.
      apply stats_eq; simpl in *; lia.
    + apply count_from_missing in Hrun, Hrun'. simpl in *.
      rewrite Hrun, Hrun'. by rewrite Hperm.
Qed.

Lemma row_order_irrelevant_example :
  example_rows ≡ₚ DictReader shuffled_lines
  ∧ match count_rows example_rows, count_rows (DictReader shuffled_lines) with
    | inr st, inr st' =>
        stats_of st = stats_of st'
        ∧ missing_url_skus st ≡ₚ missing_url_skus st'
    | inl e, inl e' => e = e'
    | _, _ => False
    end.
Proof.
  assert (H : example_rows ≡ₚ DictReader shuffled_lines).
  { unfold example_rows, example_lines, shuffled_lines, DictReader.
    rewrite !(filter_cons_True (λ cells, is_blank cells = false)) by done.
    rewrite filter_nil. cbn [map].
    set (a := dict_row header [py "A"; py "x"]).
    set (b := dict_row header [py "B"; []]).
    set (c := dict_row header [[]; py "y"]).
    set (d := dict_row header [[]; []]).
    change ([a; b; c] ++ [d] ≡ₚ [c; b; d; a]).
    rewrite (Permutation_app_comm [a; b; c] [d]). simpl.
    change ([d; a] ++ [b; c] ≡ₚ [c; b] ++ [d; a]).
    rewrite (Permutation_app_comm [d; a] [b; c]).
    apply Permutation_app_tail. apply perm_swap. }
  split; [exact H | exact (row_order_irrelevant _ _ H)].
Defined.

(** ** Files: blank lines, empty files *)

Lemma DictReader_rows (fieldnames : list pystr) (rest : list (list pystr)) :
  DictReader (fieldnames :: rest)
  = map (dict_row fieldnames) (filter non_blank rest).
Proof.
  simpl. f_equal. apply list_filter_iff. intros cells.
  unfold non_blank. by destruct cells.
Qed.

Lemma DictReader_length (lines : list (list pystr)) :
  len (DictReader lines) = len (filter non_blank (tail lines)).
Proof.
  destruct lines as [|fieldnames rest]; [done|].
  rewrite DictReader_rows. unfold len. simpl. by rewrite length_map.
Qed.

(** X6: when the loop returns, the total is the number of non-empty
    records that [csv.reader] yields after the first one: the header
    record and the empty records of blank lines are not counted as rows.
    (Records, not physical lines: a quoted cell that holds a line feed
    is part of one record.) *)
Theorem total_counts_non_blank_lines (lines : list (list pystr))
    (st : locals) :
  count_rows (DictReader lines) = inr st →
  total_rows st = len (filter non_blank (tail lines)).
Proof.
  intros (Ht & _)%count_from_counts. simpl in Ht.
  rewrite <- DictReader_length. lia.
Qed.

Lemma total_counts_non_blank_lines_example :
  count_rows (DictReader gappy_lines) = inr (Locals 2 2 1 1 [py "B"])
  ∧ 2 = len (filter non_blank (tail gappy_lines)).
Proof.
  assert (H : count_rows (DictReader gappy_lines)
              = inr (Locals 2 2 1 1 [py "B"])) by (vm_compute; reflexivity).
  split; [exact H | exact (total_counts_non_blank_lines _ _ H)].
Defined.

Lemma DictReader_blank (lines : list (list pystr)) :
  Forall (λ cells, cells = []) (tail lines) → DictReader lines = [].
Proof.
  destruct lines as [|fieldnames rest]; [done|]. simpl. intros Hall.
  induction Hall as [|cells rest -> _ IH]; [done|exact IH].
Qed.

(** X7: on a file without data (no line at all, a header only, or a
    header followed by blank lines) [analyze_csv] prints its first line
    and the five counter lines with 0, prints no listing, and returns
    four zero counters; [check_missing_urls.py] prints the five counter
    lines with 0 and nothing else. *)
Theorem empty_file_report (fs : filesystem) (filepath : pystr)
    (lines : list (list pystr)) :
  fs !! filepath = Some lines →
  Forall (λ cells, cells = []) (tail lines) →
  analyze_csv fs filepath
  = ([ nl ++ py "Analyzing: " ++ filepath;
       py "Total rows: 0";
       py "Rows with SKUs: 0";
       py "Rows with URLs: 0";
       py "Rows with both SKU and URL: 0";
       py "Rows with SKU but missing URL: 0" ],
     inr (Stats 0 0 0 0))
  ∧ (filepath = apr_path →
     check_missing_urls fs
     = ([ py "Total rows: 0";
          py "Rows with SKUs: 0";
          py "Rows with URLs: 0";
          py "Rows with both SKU and URL: 0";
          py "Rows with SKU but missing URL: 0" ],
        inr tt)).
Proof.
  intros Hfs Hblank.
  assert (Hrun : count_rows (DictReader lines) = inr init_locals)
    by (by rewrite (DictReader_blank lines Hblank)).
  split.
  - rewrite (analyze_csv_run fs filepath lines _ Hfs Hrun). reflexivity.
  - intros ->. rewrite (check_missing_urls_run fs lines _ Hfs Hrun).
    reflexivity.
Qed.

Lemma empty_file_report_example :
  let fs : filesystem := {[ apr_path := blank_lines ]} in
  fs !! apr_path = Some blank_lines
  ∧ Forall (λ cells, cells = []) (tail blank_lines)
  ∧ outcome (analyze_csv fs apr_path) = inr (Stats 0 0 0 0).
Proof.
  intros fs.
  assert (Hfs : fs !! apr_path = Some blank_lines) by (vm_compute; reflexivity).
  assert (Hblank : Forall (λ cells : list pystr, cells = []) (tail blank_lines))
    by (repeat constructor).
  split_and!; [exact Hfs | exact Hblank |].
  by rewrite (proj1 (empty_file_report fs apr_path blank_lines Hfs Hblank)).
Defined.

(** ** Columns and short lines *)

Lemma dict_zip_lookup_notin (fieldnames cells : list pystr) (d : row)
    (k : pystr) :
  k ∉ fieldnames → dict_zip fieldnames cells d !! Some k = d !! Some k.
Proof.
  revert cells d. induction fieldnames as [|k' ks IH]; intros cells d Hk; [done|].
  destruct cells as [|v vs]; [done|]. simpl.
  apply not_elem_of_cons in Hk as [Hne Hk].
  rewrite (IH vs _ Hk). apply lookup_insert_ne. congruence.
Qed.

Lemma fill_restval_lookup (keys : list pystr) (d : row) (k : pystr) :
  fill_restval keys d !! Some k
  = if decide (k ∈ keys) then Some PyNone else d !! Some k.
Proof.
  revert d. induction keys as [|k' ks IH]; intros d; cbn [fill_restval].
  - destruct (decide (k ∈ [])) as [H|_]; [by apply elem_of_nil in H|done].
  - rewrite IH. destruct (decide (k ∈ ks)) as [Hin|Hnin];
      destruct (decide (k ∈ k' :: ks)) as [Hin'|Hnin']; try done.
    + exfalso. apply Hnin'. apply elem_of_cons. by right.
    + apply elem_of_cons in Hin' as [->|?]; [apply lookup_insert_eq|done].
    + apply lookup_insert_ne. intros [= ->]. apply Hnin', elem_of_cons. by left.
Qed.

Lemma elem_of_drop_full {A} (x : A) (n : nat) (l : list A) :
  x ∈ drop n l → x ∈ l.
Proof.
  intros Hin. rewrite <- (take_drop n l). apply elem_of_app. by right.
Qed.

(** The value a row holds under a column name: [None] when the line has
    no cell for a column so named, else text or nothing. *)
Lemma dict_row_lookup (fieldnames cells : list pystr) (k : pystr) :
  if decide (k ∈ drop (length cells) fieldnames)
  then dict_row fieldnames cells !! Some k = Some PyNone
  else (∀ v, dict_row fieldnames cells !! Some k = Some v → is_text v).
Proof.
  assert (Hzip : all_text (dict_zip fieldnames cells ∅)).
  { apply dict_zip_all_text. intros k' v. by rewrite lookup_empty. }
  unfold dict_row.
  destruct (Nat.ltb_spec (length fieldnames) (length cells)) as [Hlt|Hge].
  - rewrite drop_ge by lia. rewrite decide_False by apply not_elem_of_nil.
    intros v. rewrite lookup_insert_ne by done. apply Hzip.
  - destruct (Nat.ltb_spec (length cells) (length fieldnames)) as [Hlt|Hge'].
    + rewrite fill_restval_lookup.
      destruct (decide (k ∈ drop (length cells) fieldnames)); [done|apply Hzip].
    + rewrite drop_ge by lia. rewrite decide_False by apply not_elem_of_nil.
      apply Hzip.
Qed.

Lemma dict_row_lookup_absent (fieldnames cells : list pystr) (k : pystr) :
  k ∉ fieldnames → dict_row fieldnames cells !! Some k = None.
Proof.
  intros Hk. unfold dict_row.
  assert (Hzip : dict_zip fieldnames cells ∅ !! Some k = None)
    by (by rewrite dict_zip_lookup_notin, lookup_empty).
  destruct (length fieldnames <? length cells)%nat.
  - by rewrite lookup_insert_ne.
  - destruct (length cells <? length fieldnames)%nat; [|done].
    rewrite fill_restval_lookup, decide_False; [done|].
    intros Hin. by apply Hk, (elem_of_drop_full _ (length cells)).
Qed.

Lemma dict_get_text_iff (fieldnames cells : list pystr) (k : pystr) :
  is_text (dict_get (dict_row fieldnames cells) k (PyStr []))
  ↔ k ∉ drop (length cells) fieldnames.
Proof.
  pose proof (dict_row_lookup fieldnames cells k) as Hk. unfold dict_get.
  destruct (decide (k ∈ drop (length cells) fieldnames)) as [Hin|Hnin].
  - rewrite Hk. simpl. split; [intros []|intros Hn; by destruct Hn].
  - destruct (dict_row fieldnames cells !! Some k) as [v|]; [|done].
    split; [done|]. intros _. by apply Hk.
Qed.

Lemma dict_row_textual_iff (fieldnames cells : list pystr) :
  textual (dict_row fieldnames cells)
  ↔ (SKU ∉ drop (length cells) fieldnames)
    ∧ (Origin_URL ∉ drop (length cells) fieldnames).
Proof. unfold textual. by rewrite !dict_get_text_iff. Qed.

(** The rows of a file are all textual exactly when the file has no
    short line in the sense of [has_short_line]. *)
Lemma DictReader_textual_iff (lines : list (list pystr)) :
  Forall textual (DictReader lines) ↔ ¬ has_short_line lines.
Proof.
  destruct lines as [|fieldnames rest]; [by split; [intros _ []|]|].
  rewrite DictReader_rows. change (map ?f ?l) with (f <$> l).
  rewrite Forall_fmap, Forall_forall. simpl. rewrite Exists_exists.
  setoid_rewrite list_elem_of_filter. unfold lacks_designated. split.
  - intros Hall (cells & Hin & Hnb & Hshort).
    assert (Htext : textual (dict_row fieldnames cells))
      by (apply Hall; by split).
    apply dict_row_textual_iff in Htext. tauto.
  - intros Hnone cells [Hnb Hin]. apply dict_row_textual_iff.
    split; intros Hshort; apply Hnone; exists cells; tauto.
Qed.

Lemma count_from_no_sku (reader : list row) (st st' : locals) :
  Forall (λ r, r !! Some SKU = None) reader →
  count_from st reader = inr st' →
  rows_with_skus st' = rows_with_skus st
  ∧ rows_with_both st' = rows_with_both st
  ∧ missing_url_skus st' = missing_url_skus st.
Proof.
  intros Hall. revert st.
  induction Hall as [|r reader Hr _ IH]; intros st; simpl.
  - by intros [= <-].
  - unfold loop_body, dict_get. rewrite Hr. simpl.
    destruct (call_strip _) as [?|url]; [done|]. simpl.
    intros (-> & -> & ->)%IH. done.
Qed.

Lemma count_from_no_url (reader : list row) (st st' : locals) :
  Forall (λ r, r !! Some Origin_URL = None) reader →
  count_from st reader = inr st' →
  rows_with_urls st' = rows_with_urls st
  ∧ rows_with_both st' = rows_with_both st.
Proof.
  intros Hall. revert st.
  induction Hall as [|r reader Hr _ IH]; intros st; simpl.
  - by intros [= <-].
  - unfold loop_body, dict_get. rewrite Hr. simpl.
    destruct (call_strip _) as [?|sku]; [done|]. simpl.
    rewrite andb_false_r. intros (-> & ->)%IH. done.
Qed.

Lemma DictReader_absent_column (fieldnames : list pystr)
    (rest : list (list pystr)) (k : pystr) :
  k ∉ fieldnames →
  Forall (λ r : row, r !! Some k = None) (DictReader (fieldnames :: rest)).
Proof.
  intros Hk. simpl. change (map ?f ?l) with (f <$> l).
  apply Forall_fmap, Forall_forall. intros cells _.
  by apply dict_row_lookup_absent.
Qed.

(** X8: a column missing from the header is read as always empty: when
    the loop returns on a file whose header has no 'SKU' column, no row
    counts as having an identifier or both fields and the missing list
    is empty; when the header has no 'Origin URL' column, no row counts
    as having a link or both fields and every row with an identifier is
    on the missing list. *)
Theorem absent_column_always_empty (fieldnames : list pystr)
    (rest : list (list pystr)) (st : locals) :
  count_rows (DictReader (fieldnames :: rest)) = inr st →
  (SKU ∉ fieldnames →
   rows_with_skus st = 0 ∧ rows_with_both st = 0 ∧ missing_url_skus st = [])
  ∧ (Origin_URL ∉ fieldnames →
     rows_with_urls st = 0 ∧ rows_with_both st = 0
     ∧ len (missing_url_skus st) = rows_with_skus st).
Proof.
  intros Hrun. split; intros Hk.
  - by apply (count_from_no_sku _ init_locals st
                (DictReader_absent_column fieldnames rest SKU Hk)).
  - destruct (count_from_no_url _ init_locals st
                (DictReader_absent_column fieldnames rest Origin_URL Hk) Hrun)
      as [Hu Hb].
    assert (Hinit : counters_inv init_locals)
      by (vm_compute; intuition congruence).
    destruct (count_from_inv _ _ _ Hinit Hrun) as (_ & _ & _ & Hm).
    simpl in *. split_and!; [done..|lia].
Qed.

Lemma absent_column_always_empty_example :
  count_rows (DictReader no_sku_lines) = inr (Locals 2 0 1 0 [])
  ∧ (SKU ∉ [py "Title"; Origin_URL] →
     rows_with_skus (Locals 2 0 1 0 []) = 0
     ∧ rows_with_both (Locals 2 0 1 0 []) = 0
     ∧ missing_url_skus (Locals 2 0 1 0 []) = []).
Proof.
  assert (H : count_rows (DictReader no_sku_lines) = inr (Locals 2 0 1 0 []))
    by (vm_compute; reflexivity).
  split; [exact H|].
  exact (proj1 (absent_column_always_empty _ _ _ H)).
Defined.

(** When [analyze_csv] raises and when it returns, on a file of the
    domain of [filesystem]. *)
Lemma analyze_csv_cases (fs : filesystem) (filepath : pystr)
    (lines : list (list pystr)) :
  fs !! filepath = Some lines →
  if decide (has_short_line lines)
  then analyze_csv fs filepath
       = ([nl ++ py "Analyzing: " ++ filepath], inl AttributeError)
  else ∃ st,
         count_rows (DictReader lines) = inr st
         ∧ analyze_csv fs filepath
           = ((nl ++ py "Analyzing: " ++ filepath)
                :: stdout (print_counters st)
                ++ stdout (print_missing (missing_url_skus st)),
              inr (stats_of st)).
Proof.
  intros Hfs. destruct (decide (has_short_line lines)) as [Hshort|Hnone].
  - destruct (count_rows (DictReader lines)) as [e|st] eqn:Hrun.
    + apply count_from_raises in Hrun as Hexn. destruct Hexn as [-> _].
      unfold analyze_csv, open. rewrite Hfs.
      cbn [mbind M_bind print mret M_ret lift]. by rewrite Hrun.
    + exfalso. revert Hshort. apply DictReader_textual_iff.
      apply (count_from_ok_iff _ init_locals). eauto.
  - apply DictReader_textual_iff in Hnone.
    apply (count_from_ok_iff _ init_locals) in Hnone as [st Hrun].
    exists st. split; [exact Hrun|].
    exact (analyze_csv_run fs filepath lines st Hfs Hrun).
Qed.

(** X9: the outcome of [analyze_csv] on the files of the model. When
    there is no file at the path it prints its first line and raises
    [FileNotFoundError]. On a file that opens and that [csv.reader]
    reads to the end, all fields being within the field size limit, it
    raises exactly when some non-empty record has no cell for a column
    named 'SKU' or 'Origin URL': the exception is [AttributeError] and
    only the first line has been printed; otherwise the loop returns,
    the report is printed and the four counters are returned. No counter
    line is printed before the whole file has been read. *)
Theorem analyze_csv_outcome (fs : filesystem) (filepath : pystr) :
  match fs !! filepath with
  | None =>
      analyze_csv fs filepath
      = ([nl ++ py "Analyzing: " ++ filepath], inl FileNotFoundError)
  | Some lines =>
      within_field_limit lines →
      if decide (has_short_line lines)
      then analyze_csv fs filepath
           = ([nl ++ py "Analyzing: " ++ filepath], inl AttributeError)
      else ∃ st,
             count_rows (DictReader lines) = inr st
             ∧ analyze_csv fs filepath
               = ((nl ++ py "Analyzing: " ++ filepath)
                    :: stdout (print_counters st)
                    ++ stdout (print_missing (missing_url_skus st)),
                  inr (stats_of st))
  end.
Proof.
  destruct (fs !! filepath) as [lines|] eqn:Hfs.
  - intros _. by apply analyze_csv_cases.
  - unfold analyze_csv, open. by rewrite Hfs.
Qed.

Lemma analyze_csv_outcome_example :
  let fs : filesystem := {[ apr_path := short_lines ]} in
  within_field_limit short_lines
  ∧ analyze_csv fs apr_path
    = ([nl ++ py "Analyzing: " ++ apr_path], inl AttributeError).
Proof.
  intros fs.
  assert (Hlimit : within_field_limit short_lines)
    by (unfold within_field_limit; apply (bool_decide_unpack _);
        vm_compute; exact I).
  split; [exact Hlimit|].
  pose proof (analyze_csv_outcome fs apr_path) as H.
  assert (Hfs : fs !! apr_path = Some short_lines) by (vm_compute; reflexivity).
  rewrite Hfs in H. specialize (H Hlimit).
  destruct (decide (has_short_line short_lines)) as [_|Hnone]; [exact H|].
  exfalso. apply Hnone. apply (bool_decide_unpack _). vm_compute. exact I.
Defined.

(** ** Cells of other columns *)

Lemma dict_zip_lookup_same (fieldnames cells cells' : list pystr)
    (d d' : row) (k : pystr) :
  length cells = length cells' →
  d !! Some k = d' !! Some k →
  (∀ i, fieldnames !! i = Some k → cells !! i = cells' !! i) →
  dict_zip fieldnames cells d !! Some k
  = dict_zip fieldnames cells' d' !! Some k.
Proof.
  revert cells cells' d d'.
  induction fieldnames as [|k' ks IH]; intros cells cells' d d' Hlen Hd Hsame.
  { done. }
  destruct cells as [|v vs], cells' as [|v' vs']; simpl in *; try done.
  apply IH.
  - lia.
  - destruct (decide (k' = k)) as [->|Hne].
    + rewrite !lookup_insert_eq. specialize (Hsame 0%nat eq_refl).
      simpl in Hsame. congruence.
    + rewrite !lookup_insert_ne by congruence. exact Hd.
  - intros i Hi. exact (Hsame (S i) Hi).
Qed.

Lemma dict_row_lookup_same (fieldnames cells cells' : list pystr) (k : pystr) :
  length cells = length cells' →
  (∀ i, fieldnames !! i = Some k → cells !! i = cells' !! i) →
  dict_row fieldnames cells !! Some k = dict_row fieldnames cells' !! Some k.
Proof.
  intros Hlen Hsame. unfold dict_row. rewrite <- Hlen.
  pose proof (dict_zip_lookup_same fieldnames cells cells' ∅ ∅ k Hlen
                eq_refl Hsame) as Hzip.
  destruct (length fieldnames <? length cells)%nat.
  - by rewrite !lookup_insert_ne.
  - destruct (length cells <? length fieldnames)%nat; [|done].
    rewrite !fill_restval_lookup. by destruct (decide _).
Qed.

Lemma dict_row_agree (fieldnames cells cells' : list pystr) :
  same_designated fieldnames cells cells' →
  agree (dict_row fieldnames cells) (dict_row fieldnames cells').
Proof.
  intros [Hlen Hsame]. unfold agree, field, dict_get.
  rewrite (dict_row_lookup_same fieldnames cells cells' SKU),
    (dict_row_lookup_same fieldnames cells cells' Origin_URL); eauto.
Qed.

Lemma DictReader_agree (fieldnames : list pystr)
    (rest rest' : list (list pystr)) :
  Forall2 (same_designated fieldnames) rest rest' →
  Forall2 agree (DictReader (fieldnames :: rest))
    (DictReader (fieldnames :: rest')).
Proof.
  intros Hall. rewrite !DictReader_rows.
  induction Hall as [|cells cells' rest rest' Hc _ IH]; [constructor|].
  rewrite !(filter_cons non_blank).
  destruct Hc as [Hlen Hsame].
  destruct cells as [|c cells], cells' as [|c' cells']; try done.
  rewrite !decide_True by done. simpl. constructor; [|exact IH].
  by apply dict_row_agree.
Qed.

(** X10: the cells of columns not named 'SKU' or 'Origin URL' do not
    influence a run on files that [csv.reader] reads to the end: two
    files with the same header, all fields within the field size limit,
    whose records have, one by one, the same length and the same cells
    under the columns named 'SKU' and 'Origin URL' give the same output
    and the same outcome of [analyze_csv]. *)
Theorem other_columns_irrelevant (fs fs' : filesystem) (filepath : pystr)
    (fieldnames : list pystr) (rest rest' : list (list pystr)) :
  fs !! filepath = Some (fieldnames :: rest) →
  fs' !! filepath = Some (fieldnames :: rest') →
  within_field_limit (fieldnames :: rest) →
  within_field_limit (fieldnames :: rest') →
  Forall2 (same_designated fieldnames) rest rest' →
  analyze_csv fs filepath = analyze_csv fs' filepath.
Proof.
  intros Hfs Hfs' _ _ Hall. unfold analyze_csv, open. rewrite Hfs, Hfs'.
  cbn [mbind M_bind print mret M_ret lift].
  unfold count_rows. by rewrite (count_from_agree _ _ _ (DictReader_agree _ _ _ Hall)).
Qed.

Lemma other_columns_irrelevant_example :
  let fs : filesystem := {[ apr_path := catalogue_lines ]} in
  let fs' : filesystem := {[ apr_path := repriced_lines ]} in
  within_field_limit catalogue_lines
  ∧ within_field_limit repriced_lines
  ∧ Forall2 (same_designated [py "Title"; SKU; Origin_URL; py "Price"])
      (tail catalogue_lines) (tail repriced_lines)
  ∧ analyze_csv fs apr_path = analyze_csv fs' apr_path.
Proof.
  intros fs fs'.
  assert (Hlimit : within_field_limit catalogue_lines)
    by (unfold within_field_limit; apply (bool_decide_unpack _);
        vm_compute; exact I).
  assert (Hlimit' : within_field_limit repriced_lines)
    by (unfold within_field_limit; apply (bool_decide_unpack _);
        vm_compute; exact I).
  assert (Hfs : fs !! apr_path = Some catalogue_lines)
    by (vm_compute; reflexivity).
  assert (Hfs' : fs' !! apr_path = Some repriced_lines)
    by (vm_compute; reflexivity).
  assert (Hall : Forall2 (same_designated [py "Title"; SKU; Origin_URL; py "Price"])
                   (tail catalogue_lines) (tail repriced_lines)).
  { repeat constructor;
      intros i name Hi [-> | ->];
      do 4 (destruct i as [|i];
            [first [reflexivity | (vm_compute in Hi; discriminate)]|]);
      discriminate. }
  split_and!; [exact Hlimit | exact Hlimit' | exact Hall |].
  exact (other_columns_irrelevant fs fs' apr_path _ _ _ Hfs Hfs'
           Hlimit Hlimit' Hall).
Defined.

(** ** Trimmed identifiers *)

Lemma lstrip_fixed (t : pystr) :
  (∀ c, head t = Some c → isspace c = false) → lstrip t = t.
Proof.
  destruct t as [|c t]; [done|]. intros H. simpl. by rewrite (H c eq_refl).
Qed.

Lemma rstrip_fixed (t : pystr) :
  (∀ c, last t = Some c → isspace c = false) → rstrip t = t.
Proof.
  intros H. unfold rstrip. rewrite lstrip_fixed.
  - apply reverse_involutive.
  - intros c. rewrite head_reverse. apply H.
Qed.

Lemma strip_idempotent (s : pystr) : strip (strip s) = strip s.
Proof.
  destruct (strip_spec s) as (_ & _ & _ & _ & _ & Hhead & Hlast).
  unfold strip at 1. rewrite (lstrip_fixed _ Hhead). by apply rstrip_fixed.
Qed.

Lemma qualifying_trimmed (r : row) (sku : pystr) :
  qualifying r = Some sku → sku ≠ [] ∧ ∃ s, sku = strip s.
Proof.
  unfold qualifying, field, call_strip.
  destruct (dict_get r SKU _) as [s| |l]; try done.
  destruct (dict_get r Origin_URL _) as [u| |l]; try done.
  destruct (strip s) as [|c t] eqn:Hs; [done|]. simpl.
  destruct (truthy (strip u)); simpl; [done|].
  intros [= <-]. split; [done|]. by exists s.
Qed.

(** X11: when the loop returns, every identifier on the missing list is
    non-empty and trimmed: it neither starts nor ends with white space,
    and trimming it again changes nothing. *)
Theorem missing_identifiers_trimmed (reader : list row) :
  match count_rows reader with
  | inr st =>
      Forall (λ sku : pystr,
                sku ≠ []
                ∧ strip sku = sku
                ∧ (∀ c, head sku = Some c → isspace c = false)
                ∧ (∀ c, last sku = Some c → isspace c = false))
        (missing_url_skus st)
  | inl _ => ¬ Forall textual reader
  end.
Proof.
  destruct (count_rows reader) as [e|st] eqn:Hrun.
  - by apply (count_from_raises reader init_locals e).
  - apply count_from_missing in Hrun. simpl in Hrun. rewrite Hrun.
    apply Forall_forall. intros sku (r & _ & Hq)%list_elem_of_omap.
    apply qualifying_trimmed in Hq as (Hne & s & ->).
    destruct (strip_spec s) as (_ & _ & _ & _ & _ & Hhead & Hlast).
    split_and!; [done | apply strip_idempotent | done | done].
Qed.

(** ** Cells of white space *)

Lemma lstrip_empty_iff (s : pystr) : lstrip s = [] ↔ all_space s = true.
Proof.
  unfold all_space. induction s as [|c s IH]; simpl; [done|].
  destruct (isspace c); simpl; [exact IH|done].
Qed.

Lemma strip_empty_iff (s : pystr) : strip s = [] ↔ all_space s = true.
Proof.
  rewrite <- lstrip_empty_iff. unfold strip. split.
  - intros Hstrip.
    destruct (rstrip_split (lstrip s)) as (post & Ht & Hpost).
    rewrite Hstrip in Ht. simpl in Ht.
    destruct (lstrip s) as [|c t] eqn:Hl; [done|].
    pose proof (lstrip_head s c) as Hc. rewrite Hl in Hc.
    specialize (Hc eq_refl). subst post.
    apply Forall_cons in Hpost as [Hsp _]. congruence.
  - by intros ->.
Qed.

Lemma truthy_strip (s : pystr) : truthy (strip s) = negb (all_space s).
Proof.
  destruct (all_space s) eqn:Hs.
  - apply strip_empty_iff in Hs. by rewrite Hs.
  - destruct (strip s) as [|c t] eqn:Ht; [|done].
    apply strip_empty_iff in Ht. congruence.
Qed.

(** X12: a cell counts as present exactly when it holds a character that
    is not white space. For a row with text [s] under 'SKU' and text [u]
    under 'Origin URL', one pass of the loop body adds one to the total,
    counts an identifier unless [s] is all white space, a link unless
    [u] is, both unless either is, and appends the trimmed [s] to the
    missing list exactly when [s] is not all white space and [u] is. *)
Theorem presence_is_non_space (st : locals) (r : row) (s u : pystr) :
  r !! Some SKU = Some (PyStr s) →
  r !! Some Origin_URL = Some (PyStr u) →
  loop_body st r
  = inr (Locals (total_rows st + 1)
           (if all_space s then rows_with_skus st else rows_with_skus st + 1)
           (if all_space u then rows_with_urls st else rows_with_urls st + 1)
           (if all_space s || all_space u
            then rows_with_both st else rows_with_both st + 1)
           (if negb (all_space s) && all_space u
            then missing_url_skus st ++ [strip s] else missing_url_skus st)).
Proof.
  intros Hs Hu. unfold loop_body, dict_get. rewrite Hs, Hu. simpl.
  rewrite !truthy_strip.
  by destruct (all_space s), (all_space u).
Qed.

Lemma presence_is_non_space_example :
  padded_row !! Some SKU = Some (PyStr (py "  A7 "))
  ∧ padded_row !! Some Origin_URL = Some (PyStr [9%N; 32%N])
  ∧ loop_body init_locals padded_row = inr (Locals 1 1 0 0 [py "A7"]).
Proof.
  assert (Hs : padded_row !! Some SKU = Some (PyStr (py "  A7 ")))
    by (vm_compute; reflexivity).
  assert (Hu : padded_row !! Some Origin_URL = Some (PyStr [9%N; 32%N]))
    by (vm_compute; reflexivity).
  split_and!; [exact Hs | exact Hu |].
  rewrite (presence_is_non_space init_locals padded_row _ _ Hs Hu).
  vm_compute. reflexivity.
Defined.

(** ** The shape of the output *)

(** [analyze_csv] either prints its first line and raises, or prints its
    first line, the counters and the listing, and returns. *)
Lemma analyze_csv_shape (fs : filesystem) (filepath : pystr) :
  (∃ e, analyze_csv fs filepath
        = ([nl ++ py "Analyzing: " ++ filepath], inl e))
  ∨ (∃ lines st,
       fs !! filepath = Some lines
       ∧ count_rows (DictReader lines) = inr st
       ∧ analyze_csv fs filepath
         = ((nl ++ py "Analyzing: " ++ filepath)
              :: stdout (print_counters st)
              ++ stdout (print_missing (missing_url_skus st)),
            inr (stats_of st))).
Proof.
  destruct (fs !! filepath) as [lines|] eqn:Hfs.
  - destruct (count_rows (DictReader lines)) as [e|st] eqn:Hrun.
    + left. exists e. unfold analyze_csv, open. rewrite Hfs.
      cbn [mbind M_bind print mret M_ret lift]. by rewrite Hrun.
    + right. exists lines, st. split_and!; [done..|].
      exact (analyze_csv_run fs filepath lines st Hfs Hrun).
  - left. exists FileNotFoundError. unfold analyze_csv, open. by rewrite Hfs.
Qed.

(** The module body of [check_csv_urls.py] in terms of the three
    analyses. *)
Lemma check_csv_urls_cases (fs : filesystem) :
  check_csv_urls fs
  = match analyze_csv fs apr_path with
    | (out1, inl e) => (out1, inl e)
    | (out1, inr apr_stats) =>
        match analyze_csv fs artec_path with
        | (out2, inl e) => (out1 ++ out2, inl e)
        | (out2, inr artec_stats) =>
            match analyze_csv fs bilstein_path with
            | (out3, inl e) => (out1 ++ out2 ++ out3, inl e)
            | (out3, inr bilstein_stats) =>
                (out1 ++ out2 ++ out3
                   ++ stdout (print_summary apr_stats artec_stats
                                bilstein_stats),
                 inr tt)
            end
        end
    end.
Proof.
  unfold check_csv_urls.
  destruct (analyze_csv fs apr_path) as [out1 [e|a]]; [done|].
  destruct (analyze_csv fs artec_path) as [out2 [e|b]]; [done|].
  destruct (analyze_csv fs bilstein_path) as [out3 [e|c]]; [done|].
  reflexivity.
Qed.

Lemma print_missing_length (missing : list pystr) :
  (length (stdout (print_missing missing)) ≤ 10)%nat.
Proof.
  destruct (print_missing_cases missing) as (H0 & H1 & H10).
  destruct (decide (length missing = 0%nat)) as [Hz|Hnz].
  { rewrite (H0 Hz). simpl. lia. }
  destruct (decide (length missing < 10)%nat) as [Hlt|Hge].
  - rewrite H1 by lia. simpl. rewrite length_imap. lia.
  - rewrite H10 by lia. simpl. lia.
Qed.

Lemma analyze_csv_length (fs : filesystem) (filepath : pystr) :
  (length (stdout (analyze_csv fs filepath)) ≤ 16)%nat.
Proof.
  destruct (analyze_csv_shape fs filepath)
    as [[e ->]|(lines & st & _ & _ & ->)]; simpl; [lia|].
  pose proof (print_missing_length (missing_url_skus st)). lia.
Qed.

(** X13: the output of [check_csv_urls.py] is bounded whatever the size
    of the files: a call of [analyze_csv] prints at most 16 texts (its
    first line, five counters, and at most a heading with nine numbered
    identifiers), and the whole script at most 53. *)
Theorem report_is_bounded (fs : filesystem) :
  (∀ filepath : pystr, (length (stdout (analyze_csv fs filepath)) ≤ 16)%nat)
  ∧ (length (stdout (check_csv_urls fs)) ≤ 53)%nat.
Proof.
  split; [intros filepath; apply analyze_csv_length|].
  rewrite check_csv_urls_cases.
  pose proof (analyze_csv_length fs apr_path) as H1.
  pose proof (analyze_csv_length fs artec_path) as H2.
  pose proof (analyze_csv_length fs bilstein_path) as H3.
  destruct (analyze_csv fs apr_path) as [out1 [e|a]]; simpl in *; [lia|].
  destruct (analyze_csv fs artec_path) as [out2 [e|b]]; simpl in *;
    [rewrite length_app; lia|].
  destruct (analyze_csv fs bilstein_path) as [out3 [e|c]]; simpl in *;
    rewrite !length_app; simpl; lia.
Qed.

(** ** The two scripts on the same file *)

(** X14: on the file of [check_missing_urls.py] the two scripts agree:
    [check_missing_urls.py] raises exactly what [analyze_csv] raises on
    that path and returns when it returns, it prints the same five
    counter lines, and whenever it prints at most 15 texts (fewer than
    ten missing identifiers) the output of [analyze_csv] is its own
    first line followed by the output of [check_missing_urls.py]. *)
Theorem scripts_agree_on_apr (fs : filesystem) :
  outcome (check_missing_urls fs)
  = match outcome (analyze_csv fs apr_path) with
    | inl e => inl e
    | inr _ => inr tt
    end
  ∧ take 5 (stdout (check_missing_urls fs))
    = take 5 (drop 1 (stdout (analyze_csv fs apr_path)))
  ∧ ((length (stdout (check_missing_urls fs)) ≤ 15)%nat →
     stdout (analyze_csv fs apr_path)
     = (nl ++ py "Analyzing: " ++ apr_path) :: stdout (check_missing_urls fs)).
Proof.
  destruct (fs !! apr_path) as [lines|] eqn:Hfs.
  - destruct (count_rows (DictReader lines)) as [e|st] eqn:Hrun.
    + unfold check_missing_urls, analyze_csv, open. rewrite Hfs.
      cbn [mbind M_bind print mret M_ret lift]. rewrite Hrun. done.
    + rewrite (analyze_csv_run fs apr_path lines st Hfs Hrun),
        (check_missing_urls_run fs lines st Hfs Hrun).
      split_and!; [done..|].
      rewrite print_all_missing_stdout. unfold stdout at 1. simpl.
      intros Hlen. do 6 f_equal.
      destruct (print_missing_cases (missing_url_skus st)) as (H0 & H1 & _).
      destruct (missing_url_skus st) as [|sku missing] eqn:Hm.
      * by rewrite H0.
      * rewrite H1; [done|]. simpl in Hlen. rewrite length_imap in Hlen.
        simpl. lia.
  - unfold check_missing_urls, analyze_csv, open. rewrite Hfs. done.
Qed.

Lemma scripts_agree_on_apr_example :
  let fs : filesystem := {[ apr_path := example_lines ]} in
  (length (stdout (check_missing_urls fs)) ≤ 15)%nat
  ∧ stdout (analyze_csv fs apr_path)
    = (nl ++ py "Analyzing: " ++ apr_path) :: stdout (check_missing_urls fs).
Proof.
  intros fs.
  assert (H : (length (stdout (check_missing_urls fs)) ≤ 15)%nat)
    by (vm_compute; lia).
  split; [exact H|].
  exact (proj2 (proj2 (scripts_agree_on_apr fs)) H).
Defined.

(** ** The summary block and failures *)

Lemma pretty_N_char_digit (x : N) :
  is_digit (Ascii.N_of_ascii (pretty_N_char x)) = true.
Proof. unfold pretty_N_char. by repeat case_match. Qed.

Lemma pretty_N_go_head (x : N) (s : string) :
  (0 < x)%N →
  ∃ c s', pretty_N_go x s = String c s'
          ∧ is_digit (Ascii.N_of_ascii c) = true.
Proof.
  revert s. induction (N.lt_wf_0 x) as [x _ IH]; intros s Hx.
  rewrite pretty_N_go_step by done.
  destruct (decide (x `div` 10 = 0)%N) as [H0|Hn].
  - rewrite H0, pretty_N_go_0. eexists _, _. split; [done|].
    apply pretty_N_char_digit.
  - apply IH; [apply N.div_lt; lia|by apply N.neq_0_lt_0].
Qed.

(** A non-negative [int] is printed with a digit first. *)
Lemma fmt_int_head (z : Z) :
  0 ≤ z → ∃ c t, fmt_int z = c :: t ∧ is_digit c = true.
Proof.
  intros Hz. unfold fmt_int. destruct z as [|p|p]; [| |lia].
  - by exists 48%N, [].
  - unfold pretty, pretty_Z, pretty, pretty_positive, pretty, pretty_N.
    rewrite decide_False by done.
    destruct (pretty_N_go_head (N.pos p) "") as (c & s' & -> & Hc); [lia|].
    simpl. eauto.
Qed.

Lemma numbered_line_not_header (i : nat) (identifier : pystr) :
  numbered_line i identifier ≠ summary_header.
Proof.
  unfold numbered_line.
  destruct (fmt_int_head (Z.of_nat i)) as (c & t & -> & Hc); [lia|].
  unfold summary_header, nl. simpl. intros [= -> _]. done.
Qed.

Lemma print_counters_no_header (st : locals) :
  summary_header ∉ stdout (print_counters st).
Proof.
  unfold print_counters, summary_header, nl, stdout.
  cbn [mbind M_bind print fst app py]. simpl.
  rewrite !not_elem_of_cons. split_and!; try done. apply not_elem_of_nil.
Qed.

Lemma print_missing_no_header (missing : list pystr) :
  summary_header ∉ stdout (print_missing missing).
Proof.
  destruct (print_missing_cases missing) as (H0 & H1 & H10).
  destruct (decide (length missing = 0%nat)) as [Hz|Hnz].
  { rewrite (H0 Hz). apply not_elem_of_nil. }
  destruct (decide (length missing < 10)%nat) as [Hlt|Hge].
  - rewrite H1 by lia. apply not_elem_of_cons. split; [done|].
    intros (i & Hi)%list_elem_of_lookup. rewrite list_lookup_imap in Hi.
    destruct (missing !! i) as [sku|]; [|done]. simpl in Hi.
    injection Hi as Hi. by apply (numbered_line_not_header (S i) sku).
  - rewrite H10 by lia. apply not_elem_of_cons. split; [done|].
    apply not_elem_of_nil.
Qed.

Lemma analyzing_line_not_header (filepath : pystr) :
  summary_header ≠ nl ++ py "Analyzing: " ++ filepath.
Proof.
  intros H. apply (f_equal (λ l : pystr, l !! 1%nat)) in H.
  vm_compute in H. discriminate.
Qed.

(** No line of a per-file report is the summary header. *)
Lemma analyze_csv_no_header (fs : filesystem) (filepath : pystr) :
  summary_header ∉ stdout (analyze_csv fs filepath).
Proof.
  destruct (analyze_csv_shape fs filepath)
    as [[e ->]|(lines & st & _ & _ & ->)]; unfold stdout at 1; cbn [fst].
  - rewrite not_elem_of_cons. split.
    + apply analyzing_line_not_header.
    + apply not_elem_of_nil.
  - rewrite not_elem_of_cons, not_elem_of_app. split_and!.
    + apply analyzing_line_not_header.
    + apply print_counters_no_header.
    + apply print_missing_no_header.
Qed.

(** X15: [check_csv_urls.py] prints the summary exactly when it ends
    without an exception, which is exactly when each of the three
    analyses returns; an exception of an analysis ends the script with
    that exception, after the output of the analyses run so far and
    without a summary, and the files after it are not read. *)
Theorem summary_iff_success (fs : filesystem) :
  (summary_header ∈ stdout (check_csv_urls fs)
   ↔ outcome (check_csv_urls fs) = inr tt)
  ∧ (outcome (check_csv_urls fs) = inr tt
     ↔ (∃ a, outcome (analyze_csv fs apr_path) = inr a)
       ∧ (∃ b, outcome (analyze_csv fs artec_path) = inr b)
       ∧ (∃ c, outcome (analyze_csv fs bilstein_path) = inr c))
  ∧ (∀ e, outcome (analyze_csv fs apr_path) = inl e →
          check_csv_urls fs = (stdout (analyze_csv fs apr_path), inl e))
  ∧ (∀ a e, outcome (analyze_csv fs apr_path) = inr a →
            outcome (analyze_csv fs artec_path) = inl e →
            check_csv_urls fs
            = (stdout (analyze_csv fs apr_path)
                 ++ stdout (analyze_csv fs artec_path), inl e)).
Proof.
  rewrite check_csv_urls_cases.
  pose proof (analyze_csv_no_header fs apr_path) as H1.
  pose proof (analyze_csv_no_header fs artec_path) as H2.
  pose proof (analyze_csv_no_header fs bilstein_path) as H3.
  destruct (analyze_csv fs apr_path) as [out1 [e1|a]];
    unfold stdout, outcome in *; cbn [fst snd] in *.
  { split_and!.
    - split; [done|congruence].
    - split; [congruence|]. by intros [[? ?] _].
    - by intros e [= ->].
    - intros ? ? [=]. }
  destruct (analyze_csv fs artec_path) as [out2 [e2|b]]; cbn [fst snd] in *.
  { split_and!.
    - rewrite elem_of_app. split; [tauto|congruence].
    - split; [congruence|]. by intros (_ & [? ?] & _).
    - intros ? [=].
    - by intros ? e _ [= ->]. }
  destruct (analyze_csv fs bilstein_path) as [out3 [e3|c]]; cbn [fst snd] in *.
  { split_and!.
    - rewrite !elem_of_app. split; [tauto|congruence].
    - split; [congruence|]. by intros (_ & _ & [? ?]).
    - intros ? [=].
    - intros ? ? _ [=]. }
  split_and!.
  - split; [done|]. intros _. rewrite !elem_of_app. do 3 right.
    apply list_elem_of_here.
  - split; [|done]. intros _. split_and!; eauto.
  - intros ? [=].
  - intros ? ? _ [=].
Qed.

Lemma summary_iff_success_example :
  outcome (analyze_csv broken_files apr_path) = inr (Stats 4 2 2 1)
  ∧ outcome (analyze_csv broken_files artec_path) = inl AttributeError
  ∧ check_csv_urls broken_files
    = (stdout (analyze_csv broken_files apr_path)
         ++ stdout (analyze_csv broken_files artec_path),
       inl AttributeError).
Proof.
  assert (H1 : outcome (analyze_csv broken_files apr_path)
               = inr (Stats 4 2 2 1)) by (vm_compute; reflexivity).
  assert (H2 : outcome (analyze_csv broken_files artec_path)
               = inl AttributeError) by (vm_compute; reflexivity).
  split_and!; [exact H1 | exact H2 |].
  exact (proj2 (proj2 (proj2 (summary_iff_success broken_files))) _ _ H1 H2).
Defined.

(** ** Invariants of the grand totals *)

Lemma stats_of_inv (st : locals) :
  counters_inv st →
  with_both (stats_of st) ≤ with_skus (stats_of st) ≤ total (stats_of st)
  ∧ with_both (stats_of st) ≤ with_urls (stats_of st) ≤ total (stats_of st)
  ∧ 0 ≤ with_both (stats_of st).
Proof. unfold counters_inv. simpl. lia. Qed.

Lemma analyze_csv_result_inv (fs : filesystem) (filepath : pystr)
    (out : list pystr) (result : stats) :
  analyze_csv fs filepath = (out, inr result) →
  with_both result ≤ with_skus result ≤ total result
  ∧ with_both result ≤ with_urls result ≤ total result
  ∧ 0 ≤ with_both result
  ∧ with_skus result + with_urls result - with_both result ≤ total result.
Proof.
  intros (lines & st & _ & Hrun & ->)%analyze_csv_returns.
  assert (Hinit : counters_inv init_locals)
    by (vm_compute; intuition congruence).
  pose proof (stats_of_inv st (count_from_inv _ _ _ Hinit Hrun)) as Hinv.
  apply count_from_counts in Hrun as (Ht & Hs & Hu & Hb).
  destruct (filter_either_bound has_sku has_url (DictReader lines)) as [_ Hie].
  simpl in *. lia.
Qed.

(** X16: the grand totals printed in the summary keep the invariants of
    the per-file counters: when the three analyses return, the total
    with both fields is not negative, is at most the total with SKUs and
    at most the total with URLs, each of these is at most the total
    number of records, and the records with an SKU or a URL are at most
    the total number of records. *)
Theorem grand_totals_invariant (fs : filesystem)
    (apr_stats artec_stats bilstein_stats : stats)
    (out1 out2 out3 : list pystr) :
  analyze_csv fs apr_path = (out1, inr apr_stats) →
  analyze_csv fs artec_path = (out2, inr artec_stats) →
  analyze_csv fs bilstein_path = (out3, inr bilstein_stats) →
  let records := total_records apr_stats artec_stats bilstein_stats in
  let skus := total_with_skus apr_stats artec_stats bilstein_stats in
  let urls := total_with_urls apr_stats artec_stats bilstein_stats in
  let both := total_with_both apr_stats artec_stats bilstein_stats in
  0 ≤ both ∧ both ≤ skus ≤ records ∧ both ≤ urls ≤ records
  ∧ skus + urls - both ≤ records.
Proof.
  intros H1%analyze_csv_result_inv H2%analyze_csv_result_inv
         H3%analyze_csv_result_inv.
  unfold total_records, total_with_skus, total_with_urls, total_with_both.
  simpl. lia.
Qed.

Lemma grand_totals_invariant_example :
  ∃ out1 out2 out3 : list pystr,
    analyze_csv three_files apr_path = (out1, inr (Stats 4 2 2 1))
    ∧ analyze_csv three_files artec_path = (out2, inr (Stats 0 0 0 0))
    ∧ analyze_csv three_files bilstein_path = (out3, inr (Stats 2 2 0 0))
    ∧ (0 ≤ 1 + 0 + 0 ∧ 1 + 0 + 0 ≤ 2 + 0 + 2 ≤ 4 + 0 + 2
       ∧ 1 + 0 + 0 ≤ 2 + 0 + 0 ≤ 4 + 0 + 2
       ∧ (2 + 0 + 2) + (2 + 0 + 0) - (1 + 0 + 0) ≤ 4 + 0 + 2).
Proof.
  assert (H1 : analyze_csv three_files apr_path
               = (stdout (analyze_csv three_files apr_path),
                  inr (Stats 4 2 2 1))) by (vm_compute; reflexivity).
  assert (H2 : analyze_csv three_files artec_path
               = (stdout (analyze_csv three_files artec_path),
                  inr (Stats 0 0 0 0))) by (vm_compute; reflexivity).
  assert (H3 : analyze_csv three_files bilstein_path
               = (stdout (analyze_csv three_files bilstein_path),
                  inr (Stats 2 2 0 0))) by (vm_compute; reflexivity).
  eexists _, _, _.
  split; [exact H1|]. split; [exact H2|]. split; [exact H3|].
  exact (grand_totals_invariant three_files _ _ _ _ _ _ H1 H2 H3).
Defined.

(** ** Cells beyond the header *)

Lemma dict_zip_take (fieldnames cells : list pystr) (d : row) :
  dict_zip fieldnames (take (length fieldnames) cells) d
  = dict_zip fieldnames cells d.
Proof.
  revert cells d. induction fieldnames as [|k ks IH]; intros cells d; [done|].
  destruct cells as [|v vs]; [done|]. simpl. apply IH.
Qed.

Lemma dict_row_full_lookup (fieldnames cells : list pystr) (k : pystr) :
  (length fieldnames ≤ length cells)%nat →
  dict_row fieldnames cells !! Some k
  = dict_zip fieldnames (take (length fieldnames) cells) ∅ !! Some k.
Proof.
  intros Hlen. unfold dict_row. rewrite dict_zip_take.
  destruct (Nat.ltb_spec (length fieldnames) (length cells)).
  - by rewrite lookup_insert_ne.
  - destruct (Nat.ltb_spec (length cells) (length fieldnames)); [lia|done].
Qed.

Lemma dict_row_surplus_agree (fieldnames cells cells' : list pystr) :
  surplus_only fieldnames cells cells' →
  agree (dict_row fieldnames cells) (dict_row fieldnames cells').
Proof.
  intros (Hlen & Hlen' & Htake & _). unfold agree, field, dict_get.
  rewrite !(dict_row_full_lookup fieldnames cells) by done.
  rewrite !(dict_row_full_lookup fieldnames cells') by done.
  by rewrite Htake.
Qed.

Lemma DictReader_surplus_agree (fieldnames : list pystr)
    (rest rest' : list (list pystr)) :
  Forall2 (surplus_only fieldnames) rest rest' →
  Forall2 agree (DictReader (fieldnames :: rest))
    (DictReader (fieldnames :: rest')).
Proof.
  intros Hall. rewrite !DictReader_rows.
  induction Hall as [|cells cells' rest rest' Hc _ IH]; [constructor|].
  rewrite !(filter_cons non_blank).
  pose proof Hc as (_ & _ & _ & Hblank).
  destruct (decide (non_blank cells)) as [Hnb|Hb];
    destruct (decide (non_blank cells')) as [Hnb'|Hb']; unfold non_blank in *.
  - simpl. constructor; [by apply dict_row_surplus_agree|exact IH].
  - exfalso. apply Hnb, Hblank.
    destruct cells' as [|c t]; [done|]. by destruct Hb'.
  - exfalso. apply Hnb', Hblank.
    destruct cells as [|c t]; [done|]. by destruct Hb.
  - exact IH.
Qed.

(** X17: cells beyond the header do not influence a run on files that
    [csv.reader] reads to the end: two files with the same header, all
    fields within the field size limit, whose records fill the header
    and differ, one by one, only in the cells beyond it give the same
    output and the same outcome of [analyze_csv]. *)
Theorem surplus_cells_ignored (fs fs' : filesystem) (filepath : pystr)
    (fieldnames : list pystr) (rest rest' : list (list pystr)) :
  fs !! filepath = Some (fieldnames :: rest) →
  fs' !! filepath = Some (fieldnames :: rest') →
  within_field_limit (fieldnames :: rest) →
  within_field_limit (fieldnames :: rest') →
  Forall2 (surplus_only fieldnames) rest rest' →
  analyze_csv fs filepath = analyze_csv fs' filepath.
Proof.
  intros Hfs Hfs' _ _ Hall. unfold analyze_csv, open. rewrite Hfs, Hfs'.
  cbn [mbind M_bind print mret M_ret lift]. unfold count_rows.
  by rewrite (count_from_agree _ _ _ (DictReader_surplus_agree _ _ _ Hall)).
Qed.

Lemma surplus_cells_ignored_example :
  let fs : filesystem := {[ apr_path := example_lines ]} in
  let fs' : filesystem := {[ apr_path := surplus_lines ]} in
  within_field_limit example_lines
  ∧ within_field_limit surplus_lines
  ∧ Forall2 (surplus_only header) (tail example_lines) (tail surplus_lines)
  ∧ analyze_csv fs apr_path = analyze_csv fs' apr_path.
Proof.
  intros fs fs'.
  assert (Hlimit : within_field_limit example_lines)
    by (unfold within_field_limit; apply (bool_decide_unpack _);
        vm_compute; exact I).
  assert (Hlimit' : within_field_limit surplus_lines)
    by (unfold within_field_limit; apply (bool_decide_unpack _);
        vm_compute; exact I).
  assert (Hfs : fs !! apr_path = Some example_lines)
    by (vm_compute; reflexivity).
  assert (Hfs' : fs' !! apr_path = Some surplus_lines)
    by (vm_compute; reflexivity).
  assert (Hall : Forall2 (surplus_only header)
                   (tail example_lines) (tail surplus_lines)).
  { repeat constructor; simpl; try lia; discriminate. }
  split_and!; [exact Hlimit | exact Hlimit' | exact Hall |].
  exact (surplus_cells_ignored fs fs' apr_path _ _ _ Hfs Hfs'
           Hlimit Hlimit' Hall).
Defined.

(** ** White space around a cell *)

Lemma lstrip_pad (pre t : pystr) :
  Forall (λ c, isspace c = true) pre → lstrip (pre ++ t) = lstrip t.
Proof.
  induction 1 as [|c pre Hc _ IH]; [done|]. simpl. by rewrite Hc.
Qed.

Lemma lstrip_app_keep (s t : pystr) :
  lstrip s ≠ [] → lstrip (s ++ t) = lstrip s ++ t.
Proof.
  induction s as [|c s IH]; simpl; [done|].
  destruct (isspace c); [exact IH|done].
Qed.

Lemma rstrip_pad (t post : pystr) :
  Forall (λ c, isspace c = true) post → rstrip (t ++ post) = rstrip t.
Proof.
  intros Hpost. unfold rstrip. rewrite reverse_app, lstrip_pad; [done|].
  by apply Forall_reverse.
Qed.

Lemma all_space_Forall (s : pystr) :
  all_space s = true → Forall (λ c, isspace c = true) s.
Proof.
  unfold all_space. induction s as [|c s IH]; simpl; [constructor|].
  intros [Hc Hs]%andb_true_iff. constructor; auto.
Qed.

(** White space around a text is trimmed away. *)
Lemma strip_pad (pre s post : pystr) :
  Forall (λ c, isspace c = true) pre →
  Forall (λ c, isspace c = true) post →
  strip (pre ++ s ++ post) = strip s.
Proof.
  intros Hpre Hpost. unfold strip. rewrite (lstrip_pad pre) by done.
  destruct (all_space s) eqn:Hs.
  - rewrite (lstrip_pad s) by (by apply all_space_Forall).
    rewrite <- (app_nil_r post), (lstrip_pad post) by done.
    apply lstrip_empty_iff in Hs. by rewrite Hs.
  - rewrite lstrip_app_keep.
    + by apply rstrip_pad.
    + intros Hl. apply lstrip_empty_iff in Hl. congruence.
Qed.

(** X18: white space around the two designated cells does not change
    what a row contributes: a row whose cells are those of another row
    with white space before and after them takes the loop to the same
    state. *)
Theorem padding_irrelevant (st : locals) (r r' : row)
    (s u pre post pre' post' : pystr) :
  Forall (λ c, isspace c = true) pre →
  Forall (λ c, isspace c = true) post →
  Forall (λ c, isspace c = true) pre' →
  Forall (λ c, isspace c = true) post' →
  r !! Some SKU = Some (PyStr s) →
  r !! Some Origin_URL = Some (PyStr u) →
  r' !! Some SKU = Some (PyStr (pre ++ s ++ post)) →
  r' !! Some Origin_URL = Some (PyStr (pre' ++ u ++ post')) →
  loop_body st r' = loop_body st r.
Proof.
  intros Hpre Hpost Hpre' Hpost' Hs Hu Hs' Hu'.
  unfold loop_body, dict_get. rewrite Hs, Hu, Hs', Hu'. simpl.
  by rewrite !strip_pad.
Qed.

Lemma padding_irrelevant_example :
  loop_body init_locals spaced_row = loop_body init_locals plain_row
  ∧ loop_body init_locals plain_row = inr (Locals 1 1 1 1 []).
Proof.
  split; [|vm_compute; reflexivity].
  apply (padding_irrelevant init_locals plain_row spaced_row
           (py "A 7") (py "x") [32%N; 9%N] [160%N] [] [13%N; 10%N]);
    try (repeat constructor); vm_compute; reflexivity.
Defined.

(** ** The per-row rule *)

Lemma trimmed_strip (s : pystr) : Rule.trimmed s (strip s).
Proof.
  destruct (strip_spec s) as (pre & post & Hs & Hpre & Hpost & Hhead & Hlast).
  by exists pre, post.
Qed.

(** Trimming has one result. *)
Lemma trimmed_unique (s t : pystr) : Rule.trimmed s t → t = strip s.
Proof.
  intros (pre & post & -> & Hpre & Hpost & Hhead & Hlast).
  rewrite strip_pad by done. unfold strip.
  rewrite (lstrip_fixed t Hhead). symmetry. by apply rstrip_fixed.
Qed.

Lemma text_or_absent_get (record : row) (name : pystr) :
  Rule.text_or_absent record name
  = is_text (dict_get record name (PyStr [])).
Proof.
  unfold Rule.text_or_absent, dict_get.
  by destruct (record !! Some name) as [[s| |l]|].
Qed.

Lemma is_record_textual (record : row) : Rule.is_record record ↔ textual record.
Proof. unfold Rule.is_record, textual. by rewrite !text_or_absent_get. Qed.

(** The rule of one row, computed with the trimmed values. *)
Lemma rule_of_trimmed (acc : Spec.AuditResult) (identifier link : pystr) :
  {| Spec.total := Spec.total acc + 1;
     Spec.with_identifier :=
       if bool_decide (identifier ≠ [])
       then Spec.with_identifier acc + 1 else Spec.with_identifier acc;
     Spec.with_link :=
       if bool_decide (link ≠ [])
       then Spec.with_link acc + 1 else Spec.with_link acc;
     Spec.with_both :=
       if bool_decide (identifier ≠ [] ∧ link ≠ [])
       then Spec.with_both acc + 1 else Spec.with_both acc;
     Spec.missing_link_identifiers :=
       if bool_decide (identifier ≠ [] ∧ link = [])
       then Spec.missing_link_identifiers acc ++ [identifier]
       else Spec.missing_link_identifiers acc |}
  = {| Spec.total := Spec.total acc + 1;
       Spec.with_identifier :=
         Spec.bump (Spec.non_empty identifier) (Spec.with_identifier acc);
       Spec.with_link := Spec.bump (Spec.non_empty link) (Spec.with_link acc);
       Spec.with_both :=
         Spec.bump (Spec.non_empty identifier && Spec.non_empty link)
           (Spec.with_both acc);
       Spec.missing_link_identifiers :=
         if Spec.non_empty identifier && negb (Spec.non_empty link)
         then Spec.missing_link_identifiers acc ++ [identifier]
         else Spec.missing_link_identifiers acc |}.
Proof.
  unfold Spec.bump, Spec.non_empty.
  destruct identifier as [|c identifier], link as [|d link]; reflexivity.
Qed.

Lemma step_audit_step (acc : Spec.AuditResult) (record : row) :
  Rule.step acc record (Spec.audit_step acc record).
Proof.
  unfold Spec.audit_step. rewrite <- rule_of_trimmed.
  constructor; apply trimmed_strip.
Qed.

Lemma step_unique (acc acc' : Spec.AuditResult) (record : row) :
  Rule.step acc record acc' → acc' = Spec.audit_step acc record.
Proof.
  intros Hstep. destruct Hstep as [acc record identifier link Hi Hl].
  apply trimmed_unique in Hi as ->. apply trimmed_unique in Hl as ->.
  unfold Spec.audit_step. apply rule_of_trimmed.
Qed.

Lemma audits_fold (records : list row) (acc : Spec.AuditResult) :
  Rule.audits acc records (fold_left Spec.audit_step records acc).
Proof.
  revert acc. induction records as [|record records IH]; intros acc; simpl.
  - constructor.
  - econstructor; [apply step_audit_step|apply IH].
Qed.

Lemma audits_unique (records : list row) (acc result : Spec.AuditResult) :
  Rule.audits acc records result →
  result = fold_left Spec.audit_step records acc.
Proof.
  induction 1 as [acc|acc acc' result record records Hstep _ IH]; [done|].
  simpl. by rewrite <- (step_unique _ _ _ Hstep).
Qed.

(** C1: on every sequence of records (rows whose two designated fields
    are text or absent) the loop returns, and its counters and missing
    list are those of the per-row rule applied to the records in order:
    the two designated values, an absent one being the empty text, are
    trimmed of leading and trailing white space; the total grows by one
    for every row; the identifier, link and both counters grow exactly
    when the trimmed identifier, the trimmed link, and both are
    non-empty; the trimmed identifier is appended to the missing list
    exactly when it is non-empty and the trimmed link is empty. The rule
    has no other result. On the four example rows the result is 4, 2,
    2, 1 and ["B"]; it is the same when the cells are padded with white
    space and other columns are present; and on a file without an
    'Origin URL' column every row with an identifier is listed. *)
Theorem audit_per_row_rule :
  (∀ reader : list row, Forall Rule.is_record reader →
     ∃ st, count_rows reader = inr st
           ∧ Rule.audits Spec.empty_result reader (result_of st)
           ∧ ∀ result, Rule.audits Spec.empty_result reader result →
                       result = result_of st)
  ∧ count_rows example_rows = inr (Locals 4 2 2 1 [py "B"])
  ∧ count_rows (DictReader padded_lines) = inr (Locals 4 2 2 1 [py "B"])
  ∧ count_rows (DictReader no_url_lines)
    = inr (Locals 3 2 0 0 [py "A"; py "B"]).
Proof.
  split_and!; try (vm_compute; reflexivity).
  intros reader Hall.
  assert (Htext : Forall textual reader).
  { eapply Forall_impl; [exact Hall|]. intros r. apply is_record_textual. }
  destruct (count_from_textual reader init_locals Htext) as (st & Hrun & Hres).
  exists st. split_and!; [exact Hrun | |].
  - rewrite Hres. apply audits_fold.
  - intros result Hrule. rewrite Hres. by apply audits_unique.
Qed.

Lemma audit_per_row_rule_example :
  Forall Rule.is_record (DictReader no_url_lines)
  ∧ ∃ st, count_rows (DictReader no_url_lines) = inr st
          ∧ Rule.audits Spec.empty_result (DictReader no_url_lines)
              (result_of st)
          ∧ ∀ result,
              Rule.audits Spec.empty_result (DictReader no_url_lines) result →
              result = result_of st.
Proof.
  assert (H : Forall Rule.is_record (DictReader no_url_lines))
    by (apply (bool_decide_unpack _); vm_compute; exact I).
  split; [exact H | exact (proj1 audit_per_row_rule _ H)].
Defined.

(** ** Running the audit twice *)

Lemma iterate_count (fieldnames : list pystr) (unread : list (list pystr))
    (st : locals) :
  snd (iterate fieldnames unread st)
  = count_from st (DictReader (fieldnames :: unread)).
Proof.
  revert st. induction unread as [|cells unread IH]; intros st; [done|].
  cbn [iterate DictReader].
  rewrite (filter_cons (λ cells, is_blank cells = false)).
  destruct (is_blank cells) eqn:Hblank.
  - rewrite decide_False by done. apply IH.
  - rewrite decide_True by done. cbn [map count_from].
    destruct (loop_body st (dict_row fieldnames cells)) as [e|st']; [done|].
    apply IH.
Qed.

(** A loop that returns has read the file object to its end. *)
Lemma iterate_exhausts (fieldnames : list pystr) (unread : list (list pystr))
    (st st' : locals) :
  snd (iterate fieldnames unread st) = inr st' →
  fst (iterate fieldnames unread st) = [].
Proof.
  revert st. induction unread as [|cells unread IH]; intros st; [done|].
  cbn [iterate]. destruct (is_blank cells); [apply IH|].
  destruct (loop_body st (dict_row fieldnames cells)) as [e|st1]; [done|].
  apply IH.
Qed.

Lemma lookup_new_object (objs : list file_object) (o : file_object) :
  (objs ++ [o]) !! length objs = Some o.
Proof. by rewrite list_lookup_middle. Qed.

Lemma insert_new_object (objs : list file_object) (o o' : file_object) :
  <[length objs := o']> (objs ++ [o]) = objs ++ [o'].
Proof.
  rewrite insert_app_r_alt by lia. by rewrite Nat.sub_diag.
Qed.

(** The loop on a file object just opened. *)
Lemma w_loop_new (fs : filesystem) (objs : list file_object)
    (out : list pystr) (records : list (list pystr)) (st : locals) :
  ∃ unread,
    w_loop (length objs) st (World fs (objs ++ [Opened records]) out)
    = (World fs (objs ++ [Opened unread]) out,
       match count_from st (DictReader records) with
       | inl e => inl (Exn e)
       | inr st' => inr st'
       end).
Proof.
  unfold w_loop. cbn [objects disk console]. rewrite lookup_new_object.
  destruct records as [|fieldnames unread]; [by exists []|].
  rewrite <- iterate_count.
  destruct (iterate fieldnames unread st) as [unread' r].
  exists unread'. by rewrite insert_new_object.
Qed.

(** A run of [audit_w]: the disk and the console are left as they were,
    the file object it opened is closed, and the outcome is that of the
    loop over the records on the disk. *)
Lemma audit_w_run (w : world) (filepath : pystr) :
  audit_w filepath w
  = match disk w !! filepath with
    | None => (w, inl (Exn FileNotFoundError))
    | Some records =>
        (World (disk w) (objects w ++ [Closed]) (console w),
         match count_rows (DictReader records) with
         | inl e => inl (Exn e)
         | inr st => inr st
         end)
    end.
Proof.
  destruct w as [fs objs out].
  unfold audit_w, mbind, W_bind, w_open, w_with. cbn [disk objects console].
  destruct (fs !! filepath) as [records|]; [|done].
  destruct (w_loop_new fs objs out records init_locals) as [unread ->].
  unfold w_close. cbn [disk objects console]. by rewrite insert_new_object.
Qed.

Lemma analyze_csv_no_file (fs : filesystem) (filepath : pystr) :
  fs !! filepath = None →
  analyze_csv fs filepath
  = ([nl ++ py "Analyzing: " ++ filepath], inl FileNotFoundError).
Proof. intros Hfs. unfold analyze_csv, open. by rewrite Hfs. Qed.

Lemma analyze_csv_loop_raises (fs : filesystem) (filepath : pystr)
    (lines : list (list pystr)) (e : exn) :
  fs !! filepath = Some lines →
  count_rows (DictReader lines) = inl e →
  analyze_csv fs filepath = ([nl ++ py "Analyzing: " ++ filepath], inl e).
Proof.
  intros Hfs Hrun. unfold analyze_csv, open. rewrite Hfs.
  cbn [mbind M_bind print mret M_ret lift]. by rewrite Hrun.
Qed.

(** A run of [analyze_csv_w]: the disk is left as it was, the file object
    it opened is closed, and what it prints and returns is what
    [analyze_csv] prints and returns on the disk. *)
Lemma analyze_csv_w_run (w : world) (filepath : pystr) :
  analyze_csv_w filepath w
  = (World (disk w)
       (objects w ++ match disk w !! filepath with
                     | Some _ => [Closed]
                     | None => []
                     end)
       (console w ++ stdout (analyze_csv (disk w) filepath)),
     match outcome (analyze_csv (disk w) filepath) with
     | inl e => inl (Exn e)
     | inr result => inr result
     end).
Proof.
  destruct w as [fs objs out]. cbn [disk objects console].
  unfold analyze_csv_w, mbind, W_bind, w_open, w_with, w_print.
  cbn [disk objects console].
  destruct (fs !! filepath) as [records|] eqn:Hfs.
  - destruct (w_loop_new fs objs (out ++ [nl ++ py "Analyzing: " ++ filepath])
                records init_locals) as [unread Hloop].
    match type of Hloop with
    | _ = ?after =>
        match goal with
        | |- context [w_loop ?file ?st ?w] =>
            replace (w_loop file st w) with after by (symmetry; exact Hloop)
        end
    end.
    fold (count_rows (DictReader records)).
    destruct (count_rows (DictReader records)) as [e|st] eqn:Hrun.
    + rewrite (analyze_csv_loop_raises fs filepath records e Hfs Hrun).
      unfold w_close. cbn [disk objects console stdout outcome fst snd].
      by rewrite insert_new_object.
    + rewrite (analyze_csv_run fs filepath records st Hfs Hrun).
      pose proof (print_missing_run (missing_url_skus st)) as Hm.
      destruct (print_missing (missing_url_skus st)) as [listing r].
      injection Hm as ->.
      unfold w_lift, w_close, mret, W_ret.
      cbn [disk objects console fst snd stdout outcome].
      replace (outcome (print_counters st)) with (@inr exn unit tt)
        by reflexivity.
      cbn [disk objects console].
      rewrite insert_new_object, <- !app_assoc. reflexivity.
  - rewrite (analyze_csv_no_file fs filepath Hfs).
    cbn [stdout outcome fst snd]. by rewrite app_nil_r.
Qed.

(** The loop over a file object that a loop has read to its end reads
    no row: a second loop sees the whole file only because the file is
    opened again. *)
Lemma reader_is_consumed (w : world) (filepath : pystr)
    (records : list (list pystr)) (st : locals) :
  disk w !! filepath = Some records →
  count_rows (DictReader records) = inr st →
  snd (loop_twice filepath w) = inr (st, init_locals).
Proof.
  intros Hfs Hrun. destruct w as [fs objs out]. cbn [disk] in Hfs.
  unfold loop_twice, mbind, W_bind, w_open, w_with. cbn [disk objects console].
  rewrite Hfs. unfold w_loop at 1. cbn [disk objects console].
  rewrite lookup_new_object.
  destruct records as [|fieldnames unread].
  - injection Hrun as <-. unfold w_loop. cbn [objects].
    by rewrite lookup_new_object.
  - unfold count_rows in Hrun. rewrite <- iterate_count in Hrun.
    pose proof (iterate_exhausts fieldnames unread init_locals st Hrun) as Hend.
    destruct (iterate fieldnames unread init_locals) as [unread' r].
    cbn [fst snd] in *. subst unread' r.
    unfold w_loop. cbn [disk objects console].
    by rewrite insert_new_object, lookup_new_object.
Qed.

(** C7: a second run over the same static input gives what the first
    gave. From any state of the world, [analyze_csv] run a second time
    after a first run returns the same four counters (or raises the same
    exception) and prints the same texts, and lines 8-36 run a second
    time end with the same variables, missing list included: each run
    opens the file anew, starts its counters afresh, and leaves the disk
    as it found it. *)
Theorem audit_deterministic (w : world) (filepath : pystr) :
  (∃ (w1 w2 : world) (out : list pystr) (result : failure + stats),
     analyze_csv_w filepath w = (w1, result)
     ∧ analyze_csv_w filepath w1 = (w2, result)
     ∧ console w1 = console w ++ out
     ∧ console w2 = console w1 ++ out
     ∧ disk w2 = disk w)
  ∧ (∃ (w1 w2 : world) (result : failure + locals),
       audit_w filepath w = (w1, result)
       ∧ audit_w filepath w1 = (w2, result)
       ∧ console w2 = console w
       ∧ disk w2 = disk w).
Proof.
  split.
  - eexists _, _, (stdout (analyze_csv (disk w) filepath)), _.
    split; [apply analyze_csv_w_run|].
    rewrite analyze_csv_w_run. cbn [disk objects console].
    split_and!; reflexivity.
  - rewrite audit_w_run.
    destruct (disk w !! filepath) as [records|] eqn:Hfs.
    + eexists _, _, _. split; [reflexivity|].
      rewrite audit_w_run. cbn [disk objects console]. rewrite Hfs.
      split_and!; reflexivity.
    + exists w, w. eexists. split; [reflexivity|].
      rewrite audit_w_run, Hfs. split_and!; reflexivity.
Qed.
